(** * Motorola sensors HAL: the L3G4200D gyroscope and the libiio sensor

    A shallow embedding of [8226/l3g4200d_hal.cpp] (class [GyroSensor]) and of
    [motosh_hal/IioSensor.cpp] (class [IioSensor]), and the properties of
    their event-stream, lifecycle and flush code.

    Conventions.
    - C integers are [Z]; a conversion to [int] or [int64_t] is written
      [to_int] / [to_int64] where the source converts.
    - Every member function becomes a function from the object's state to a
      result and the new state.  What the kernel or libiio answers (the value
      [open], [ioctl], [read] or [iio_buffer_refill] returns) is an explicit
      argument of the function that makes the call.
    - Every call that leaves the process (a system call, a libiio call, an
      error log line) is appended to the [trace] of the object, so that
      "performs no device operation" is a statement about [trace].
    - [readEvents] returns, next to its [int] result, the list of events it
      stored into the caller's array, in array order. *)

From Stdlib Require Import ZArith Lia List Bool Floats Uint63.
From stdpp Require Import base option list gmap strings.

Open Scope Z_scope.

(** ** Machine integers and errno *)

(** The value of a [w]-bit two's complement integer holding [x]. *)
Definition wrap (w x : Z) : Z := (x + 2 ^ (w - 1)) mod 2 ^ w - 2 ^ (w - 1).

Definition to_int (x : Z) : Z := wrap 32 x.
Definition to_int64 (x : Z) : Z := wrap 64 x.

Definition INT_MIN : Z := - 2 ^ 31.
Definition INT_MAX : Z := 2 ^ 31 - 1.

(** [EINVAL] of <errno.h>. *)
Definition EINVAL : Z := 22.

(** C's [e ? 1 : 0]. *)
Definition truth (e : Z) : Z := if e =? 0 then 0 else 1.

(** ** Constants of the platform headers *)

(** <hardware/sensors.h> *)
Definition SENSOR_TYPE_META_DATA : Z := 0.
Definition SENSOR_TYPE_GYROSCOPE : Z := 4.
Definition SENSOR_STATUS_ACCURACY_HIGH : Z := 3.
Definition META_DATA_FLUSH_COMPLETE : Z := 1.
Definition REPORTING_MODE_MASK : Z := 14.
Definition SENSOR_FLAG_ONE_SHOT_MODE : Z := 4.

(** <linux/input.h> *)
Definition EV_SYN : Z := 0.
Definition EV_REL : Z := 2.

(** Constants that the sources take from headers of the HAL which are not
    part of the two files: they stay parameters of the development. *)
Class HalHeaders := {
  ID_G : Z;
  EVENT_TYPE_GYRO_P : Z;
  EVENT_TYPE_GYRO_R : Z;
  EVENT_TYPE_GYRO_Y : Z;
  META_DATA_VERSION : Z;
  sizeof_sensors_event_t : Z;
  MAX_CHANNELS : Z;
  BUFFER_LEN : Z
}.

(** * GyroSensor (8226/l3g4200d_hal.cpp) *)
Module GyroSensor.

(** The three per-axis conversion factors are float macros; a gyro reading
    is kept as the product the source forms, [value * CONVERT_G_x]. *)
Inductive conv := CONVERT_G_P | CONVERT_G_R | CONVERT_G_Y.
Inductive fval := FZero | FScaled (value : Z) (c : conv).

(** [sensors_event_t], with the members the gyroscope code touches.  The
    [gyro] and [meta_data] members of the union are kept apart. *)
Record sensors_event_t := {
  version : Z;
  sensor : Z;
  type : Z;
  reserved0 : Z;
  timestamp : Z;
  gyro_x : fval;
  gyro_y : fval;
  gyro_z : fval;
  gyro_status : Z;
  meta_what : Z;
  meta_sensor : Z
}.

Record timeval := { tv_sec : Z; tv_usec : Z }.

(** [struct input_event] of <linux/input.h>. *)
Record input_event := {
  ie_time : timeval;
  ie_type : Z;
  ie_code : Z;
  ie_value : Z
}.

Inductive ioctl_req :=
| L3G4200D_IOCTL_GET_ENABLE
| L3G4200D_IOCTL_SET_ENABLE
| L3G4200D_IOCTL_SET_DELAY.

(** What leaves the process. *)
Inductive effect :=
| SysOpen (fd : Z)                          (* open(dev_name) answered fd *)
| SysClose (fd : Z)
| SysIoctl (fd : Z) (req : ioctl_req) (arg : Z)
| SysRead (fd : Z)                          (* the read of mInputReader.fill *)
| LogE_ioctl_failed (err : Z)
| LogE_unknown_event (type code : Z).

Record state := {
  dev_fd : Z;
  data_fd : Z;
  mEnabled : Z;
  mInputReader : list input_event;   (* events read and not yet consumed *)
  mFlushEnabled : Z;
  mPendingEvent : sensors_event_t;
  mFlushEvent : sensors_event_t;
  trace : list effect
}.

Definition set_dev_fd (v : Z) (s : state) : state :=
  {| dev_fd := v; data_fd := data_fd s; mEnabled := mEnabled s;
     mInputReader := mInputReader s; mFlushEnabled := mFlushEnabled s;
     mPendingEvent := mPendingEvent s; mFlushEvent := mFlushEvent s;
     trace := trace s |}.

Definition set_mEnabled (v : Z) (s : state) : state :=
  {| dev_fd := dev_fd s; data_fd := data_fd s; mEnabled := v;
     mInputReader := mInputReader s; mFlushEnabled := mFlushEnabled s;
     mPendingEvent := mPendingEvent s; mFlushEvent := mFlushEvent s;
     trace := trace s |}.

Definition set_mInputReader (v : list input_event) (s : state) : state :=
  {| dev_fd := dev_fd s; data_fd := data_fd s; mEnabled := mEnabled s;
     mInputReader := v; mFlushEnabled := mFlushEnabled s;
     mPendingEvent := mPendingEvent s; mFlushEvent := mFlushEvent s;
     trace := trace s |}.

Definition set_mFlushEnabled (v : Z) (s : state) : state :=
  {| dev_fd := dev_fd s; data_fd := data_fd s; mEnabled := mEnabled s;
     mInputReader := mInputReader s; mFlushEnabled := v;
     mPendingEvent := mPendingEvent s; mFlushEvent := mFlushEvent s;
     trace := trace s |}.

Definition set_mPendingEvent (v : sensors_event_t) (s : state) : state :=
  {| dev_fd := dev_fd s; data_fd := data_fd s; mEnabled := mEnabled s;
     mInputReader := mInputReader s; mFlushEnabled := mFlushEnabled s;
     mPendingEvent := v; mFlushEvent := mFlushEvent s;
     trace := trace s |}.

Definition emit (e : effect) (s : state) : state :=
  {| dev_fd := dev_fd s; data_fd := data_fd s; mEnabled := mEnabled s;
     mInputReader := mInputReader s; mFlushEnabled := mFlushEnabled s;
     mPendingEvent := mPendingEvent s; mFlushEvent := mFlushEvent s;
     trace := trace s ++ [e] |}.

Definition set_timestamp (t : Z) (e : sensors_event_t) : sensors_event_t :=
  {| version := version e; sensor := sensor e; type := type e;
     reserved0 := reserved0 e; timestamp := t;
     gyro_x := gyro_x e; gyro_y := gyro_y e; gyro_z := gyro_z e;
     gyro_status := gyro_status e;
     meta_what := meta_what e; meta_sensor := meta_sensor e |}.

Definition set_gyro_x (v : fval) (e : sensors_event_t) : sensors_event_t :=
  {| version := version e; sensor := sensor e; type := type e;
     reserved0 := reserved0 e; timestamp := timestamp e;
     gyro_x := v; gyro_y := gyro_y e; gyro_z := gyro_z e;
     gyro_status := gyro_status e;
     meta_what := meta_what e; meta_sensor := meta_sensor e |}.

Definition set_gyro_y (v : fval) (e : sensors_event_t) : sensors_event_t :=
  {| version := version e; sensor := sensor e; type := type e;
     reserved0 := reserved0 e; timestamp := timestamp e;
     gyro_x := gyro_x e; gyro_y := v; gyro_z := gyro_z e;
     gyro_status := gyro_status e;
     meta_what := meta_what e; meta_sensor := meta_sensor e |}.

Definition set_gyro_z (v : fval) (e : sensors_event_t) : sensors_event_t :=
  {| version := version e; sensor := sensor e; type := type e;
     reserved0 := reserved0 e; timestamp := timestamp e;
     gyro_x := gyro_x e; gyro_y := gyro_y e; gyro_z := v;
     gyro_status := gyro_status e;
     meta_what := meta_what e; meta_sensor := meta_sensor e |}.

(** *** The parts of SensorBase the gyroscope relies on *)

(** Modelled from the spec: [SensorBase::open_device] is not in the two
    files.  "acquire/open the device handle if not already open": when no
    handle is held, [open] is called and its answer [fd] (negative when the
    open failed) becomes [dev_fd]. *)
Definition open_device (fd : Z) (s : state) : state :=
  if dev_fd s <? 0 then set_dev_fd fd (emit (SysOpen fd) s) else s.

(** Modelled from the spec: [SensorBase::close_device] is not in the two
    files.  The handle is "released synchronously": a held handle is closed
    and [dev_fd] goes back to -1. *)
Definition close_device (s : state) : state :=
  if 0 <=? dev_fd s then set_dev_fd (-1) (emit (SysClose (dev_fd s)) s) else s.

(** Modelled from the spec: [SensorBase::timevalToNano] is not in the two
    files; the time field of an input event (seconds and microseconds) as an
    [int64_t] count of nanoseconds. *)
Definition timevalToNano (t : timeval) : Z :=
  to_int64 (tv_sec t * 1000000000 + tv_usec t * 1000).

(** Modelled from the spec: [InputEventCircularReader] is not in the two
    files.  The reader is a queue of at most [reader_capacity] events
    ([mInputReader(32)]): [fill] reads from the descriptor into the free
    space and answers the number of events read or a negative error code,
    [readEvent] shows the oldest event when there is one, [next] drops it. *)
Definition reader_capacity : nat := 32.

Inductive read_outcome :=
| ReadFail (errno : Z)                     (* read(2) failed, errno set *)
| ReadData (evs : list input_event).       (* the events the device had *)

Definition fill (r : read_outcome) (s : state) : Z * state :=
  let free := (reader_capacity - length (mInputReader s))%nat in
  match free with
  | O => (0, s)
  | _ =>
    let s1 := emit (SysRead (data_fd s)) s in
    match r with
    | ReadFail errno => (- errno, s1)
    | ReadData evs =>
      let got := firstn free evs in
      (Z.of_nat (length got), set_mInputReader (mInputReader s ++ got) s1)
    end
  end.

(** *** What the kernel answers *)

(** The answers to the calls of one member function: what [open] returns,
    what [ioctl] returns, the [errno] it leaves, and for GET_ENABLE the value
    it stores through its argument. *)
Record sys := {
  open_ret : Z;
  ioctl_ret : Z;
  errno : Z;
  ioctl_out : Z
}.

Section WithHeaders.
Context `{HalHeaders}.

(** *** Construction *)

Definition pending_init : sensors_event_t :=
  {| version := sizeof_sensors_event_t; sensor := ID_G;
     type := SENSOR_TYPE_GYROSCOPE; reserved0 := 0; timestamp := 0;
     gyro_x := FZero; gyro_y := FZero; gyro_z := FZero;
     gyro_status := SENSOR_STATUS_ACCURACY_HIGH;
     meta_what := 0; meta_sensor := 0 |}.

Definition flush_init : sensors_event_t :=
  {| version := META_DATA_VERSION; sensor := 0;
     type := SENSOR_TYPE_META_DATA; reserved0 := 0; timestamp := 0;
     gyro_x := FZero; gyro_y := FZero; gyro_z := FZero;
     gyro_status := 0;
     meta_what := META_DATA_FLUSH_COMPLETE; meta_sensor := ID_G |}.

(** [GyroSensor::GyroSensor()]; [datafd] is the input descriptor SensorBase
    found for the device. *)
Definition new (datafd : Z) (k : sys) : state :=
  let s0 := {| dev_fd := -1; data_fd := datafd; mEnabled := 0;
               mInputReader := []; mFlushEnabled := 0;
               mPendingEvent := pending_init; mFlushEvent := flush_init;
               trace := [] |} in
  let s1 := open_device (open_ret k) s0 in
  let s2 := emit (SysIoctl (dev_fd s1) L3G4200D_IOCTL_GET_ENABLE 0) s1 in
  let flags := if ioctl_ret k =? 0 then ioctl_out k else 0 in
  let s3 := if negb (flags =? 0) then set_mEnabled 1 s2 else s2 in
  if mEnabled s3 =? 0 then close_device s3 else s3.

(** *** Enable, delay, flush *)

Definition setEnable (k : sys) (handle en : Z) (s : state) : Z * state :=
  let flags := truth en in
  if flags =? mEnabled s then (0, s)
  else
    let s1 := if negb (flags =? 0) then open_device (open_ret k) s else s in
    let s2 := emit (SysIoctl (dev_fd s1) L3G4200D_IOCTL_SET_ENABLE flags) s1 in
    let err := if ioctl_ret k <? 0 then - errno k else 0 in
    let s3 := if negb (err =? 0) then emit (LogE_ioctl_failed err) s2 else s2 in
    let s4 := if err =? 0 then set_mEnabled flags s3 else s3 in
    let s5 := if flags =? 0 then close_device s4 else s4 in
    (err, s5).

Definition getEnable (handle : Z) (s : state) : Z := mEnabled s.

Definition setDelay (k : sys) (handle ns : Z) (s : state) : Z * state :=
  if ns <? 0 then (- EINVAL, s)
  else
    let delay := to_int (ns ÷ 1000000) in
    let s1 := if (mEnabled s =? 0) && (dev_fd s =? -1)
              then open_device (open_ret k) s else s in
    let s2 := emit (SysIoctl (dev_fd s1) L3G4200D_IOCTL_SET_DELAY delay) s1 in
    if negb (ioctl_ret k =? 0) then (- errno k, s2)
    else
      let s3 := if mEnabled s2 =? 0 then close_device s2 else s2 in
      (0, s3).

Definition flush (handle : Z) (s : state) : Z * state :=
  (0, set_mFlushEnabled 1 s).

(** *** Reading events *)

Definition processEvent (code value : Z) (p : sensors_event_t) : sensors_event_t :=
  if code =? EVENT_TYPE_GYRO_P then set_gyro_y (FScaled value CONVERT_G_P) p
  else if code =? EVENT_TYPE_GYRO_R then set_gyro_x (FScaled value CONVERT_G_R) p
  else if code =? EVENT_TYPE_GYRO_Y then set_gyro_z (FScaled value CONVERT_G_Y) p
  else p.

(** The variables of the [while] loop of [readEvents]: the room left in the
    caller's array, the events counted, the events stored, the pending
    sample, and the error lines logged. *)
Record loop_vars := {
  lv_count : Z;
  lv_num : Z;
  lv_data : list sensors_event_t;
  lv_pending : sensors_event_t;
  lv_log : list effect
}.

(** One turn of the loop body on the event the reader shows. *)
Definition loop_body (enabled : Z) (ev : input_event) (v : loop_vars) : loop_vars :=
  if ie_type ev =? EV_REL then
    {| lv_count := lv_count v; lv_num := lv_num v; lv_data := lv_data v;
       lv_pending := processEvent (ie_code ev) (ie_value ev) (lv_pending v);
       lv_log := lv_log v |}
  else if ie_type ev =? EV_SYN then
    let p := set_timestamp (timevalToNano (ie_time ev)) (lv_pending v) in
    if negb (enabled =? 0) then
      {| lv_count := lv_count v - 1; lv_num := lv_num v + 1;
         lv_data := lv_data v ++ [p]; lv_pending := p; lv_log := lv_log v |}
    else
      {| lv_count := lv_count v; lv_num := lv_num v; lv_data := lv_data v;
         lv_pending := p; lv_log := lv_log v |}
  else
    {| lv_count := lv_count v; lv_num := lv_num v; lv_data := lv_data v;
       lv_pending := lv_pending v;
       lv_log := lv_log v ++ [LogE_unknown_event (ie_type ev) (ie_code ev)] |}.

(** [while (count && mInputReader.readEvent(&event)) { ...; next(); }]:
    every turn consumes the oldest queued event, so the loop is a recursion
    on the queue; it answers the events left in the reader. *)
Fixpoint read_loop (enabled : Z) (q : list input_event) (v : loop_vars)
  : list input_event * loop_vars :=
  match q with
  | [] => ([], v)
  | ev :: q' =>
    if lv_count v =? 0 then (q, v)
    else read_loop enabled q' (loop_body enabled ev v)
  end.

Definition readEvents (r : read_outcome) (count : Z) (s : state)
  : Z * list sensors_event_t * state :=
  if count <? 1 then (- EINVAL, [], s)
  else
    let flushing := negb (count =? 0) && negb (mFlushEnabled s =? 0) in
    let s1 := if flushing then set_mFlushEnabled 0 s else s in
    let data1 := if flushing then [mFlushEvent s] else [] in
    let count1 := if flushing then count - 1 else count in
    let num1 := if flushing then 1 else 0 in
    let '(n, s2) := fill r s1 in
    if n <? 0 then (to_int n, data1, s2)
    else
      let '(q, v) :=
        read_loop (mEnabled s2) (mInputReader s2)
          {| lv_count := count1; lv_num := num1; lv_data := data1;
             lv_pending := mPendingEvent s2; lv_log := [] |} in
      let s3 := set_mPendingEvent (lv_pending v) (set_mInputReader q s2) in
      let s4 := fold_left (fun a e => emit e a) (lv_log v) s3 in
      (lv_num v, lv_data v, s4).

(** *** The states a gyroscope object goes through *)

Inductive step : state -> state -> Prop :=
| step_setEnable k handle en s : step s (snd (setEnable k handle en s))
| step_setDelay k handle ns s : step s (snd (setDelay k handle ns s))
| step_flush handle s : step s (snd (flush handle s))
| step_readEvents r count s : step s (snd (readEvents r count s)).

Inductive reachable : state -> Prop :=
| reach_new datafd k : reachable (new datafd k)
| reach_step s s' : reachable s -> step s s' -> reachable s'.

(** A flush-complete marker, as the consumer recognises it. *)
Definition is_flush_marker (e : sensors_event_t) : bool :=
  (type e =? SENSOR_TYPE_META_DATA) && (meta_what e =? META_DATA_FLUSH_COMPLETE).

Definition count_markers (l : list sensors_event_t) : nat :=
  length (filter (fun e => is_flush_marker e = true) l).

(** An input event the loop neither stores nor commits. *)
Definition unknown_event (ev : input_event) : bool :=
  negb (ie_type ev =? EV_REL) && negb (ie_type ev =? EV_SYN).

(** [flush] called once per handle of the list, in order. *)
Definition flushes (handles : list Z) (s : state) : state :=
  fold_left (fun a handle => snd (flush handle a)) handles s.

(** The loop variables without the log lines. *)
Definition lv_result (v : loop_vars)
  : Z * Z * list sensors_event_t * sensors_event_t :=
  (lv_count v, lv_num v, lv_data v, lv_pending v).

(** The errno of a failed read is an [int]. *)
Definition read_outcome_int (r : read_outcome) : Prop :=
  match r with
  | ReadFail errno => errno <= INT_MAX
  | ReadData _ => True
  end.

(** A sync event, and how many of them a queue holds. *)
Definition is_sync (ev : input_event) : bool := ie_type ev =? EV_SYN.

Definition sync_count (q : list input_event) : Z :=
  Z.of_nat (length (filter (fun ev => is_sync ev = true) q)).

(** Two events with the same version, sensor, type and gyro status: the
    members that no axis update and no timestamp write reaches.  (The
    [meta_data] members share their storage with [gyro.x] and [gyro.y] in
    the union and are left out.) *)
Definition same_header (a b : sensors_event_t) : Prop :=
  version a = version b /\ sensor a = sensor b /\ type a = type b /\
  gyro_status a = gyro_status b.

(** The events the reader holds once [fill] has run. *)
Definition reader_after_fill (r : read_outcome) (s : state) : list input_event :=
  mInputReader (snd (fill r s)).

(** What the flush marker takes of the caller's array. *)
Definition marker_room (s : state) : Z :=
  if mFlushEnabled s =? 0 then 0 else 1.

End WithHeaders.

End GyroSensor.

(** * IioSensor (motosh_hal/IioSensor.cpp) *)
Module IioSensor.

(** What libiio tells about a channel of the device.  [chan_first] is the
    distance [iio_buffer_first(buf, chan) - iio_buffer_start(buf)], the place
    of the channel inside a sample record. *)
Record iio_channel := {
  chan_index : Z;                  (* iio_channel_get_index, negative: none *)
  chan_id : option string;         (* iio_channel_get_id, None: NULL *)
  chan_is_output : bool;
  chan_is_scan_element : bool;
  chan_first : Z
}.

Record iio_device := {
  dev_channels : list iio_channel;
  dev_sample_size : Z              (* iio_device_get_sample_size *)
}.

(** A value converted out of the scan buffer: [iio_channel_convert] applied
    to channel number [rr_chan] at the address [rr_addr].  Addresses are
    counted from [iio_buffer_start(iio_buf)], which is address 0. *)
Record raw_read := { rr_chan : nat; rr_addr : Z }.

(** [sensors_event_t] as [readEvents] fills it: [timestamp] is [None] until
    a timestamp channel is converted into it, [data] holds, per index, the
    sample that [(float)convVal(unscaled)] was computed from (an absent index
    is the zero [bzero] left). *)
Record sensors_event_t := {
  version : Z;
  sensor : Z;
  type : Z;
  timestamp : option raw_read;
  data : gmap Z raw_read;
  flags : Z
}.

(** What leaves the process (debug log lines are left out). *)
Inductive effect :=
| ChannelEnable (c : nat)
| ChannelDisable (c : nat)
| CreateBuffer (samples : Z) (cyclic : bool)
| SetBlockingMode (buf : Z) (blocking : bool)
| DestroyBuffer (buf : Z)
| BufferRefill (buf : option Z)
| AttrWriteLongLong (attr : string) (v : Z)
| AttrWriteDouble (attr : string) (v : float)
| LogE_refill (err : Z)
| LogE_create (errno : Z).

Record state := {
  sensor_handle : Z;
  sensor_type : Z;
  sensor_flags : Z;
  remaining_samples : Z;
  iio_dev : iio_device;
  iio_buf : option Z;              (* the buffer libiio handed out, if any *)
  channel_offset : gmap Z Z;
  trace : list effect
}.

Definition set_remaining_samples (v : Z) (s : state) : state :=
  {| sensor_handle := sensor_handle s; sensor_type := sensor_type s;
     sensor_flags := sensor_flags s; remaining_samples := v;
     iio_dev := iio_dev s; iio_buf := iio_buf s;
     channel_offset := channel_offset s; trace := trace s |}.

Definition set_iio_buf (v : option Z) (s : state) : state :=
  {| sensor_handle := sensor_handle s; sensor_type := sensor_type s;
     sensor_flags := sensor_flags s; remaining_samples := remaining_samples s;
     iio_dev := iio_dev s; iio_buf := v;
     channel_offset := channel_offset s; trace := trace s |}.

Definition set_channel_offset (v : gmap Z Z) (s : state) : state :=
  {| sensor_handle := sensor_handle s; sensor_type := sensor_type s;
     sensor_flags := sensor_flags s; remaining_samples := remaining_samples s;
     iio_dev := iio_dev s; iio_buf := iio_buf s;
     channel_offset := v; trace := trace s |}.

Definition emit (e : effect) (s : state) : state :=
  {| sensor_handle := sensor_handle s; sensor_type := sensor_type s;
     sensor_flags := sensor_flags s; remaining_samples := remaining_samples s;
     iio_dev := iio_dev s; iio_buf := iio_buf s;
     channel_offset := channel_offset s; trace := trace s ++ [e] |}.

Definition emits (es : list effect) (s : state) : state :=
  fold_left (fun a e => emit e a) es s.

Definition set_timestamp (v : option raw_read) (d : sensors_event_t) : sensors_event_t :=
  {| version := version d; sensor := sensor d; type := type d;
     timestamp := v; data := data d; flags := flags d |}.

Definition set_data (v : gmap Z raw_read) (d : sensors_event_t) : sensors_event_t :=
  {| version := version d; sensor := sensor d; type := type d;
     timestamp := timestamp d; data := v; flags := flags d |}.

(** The buffer addresses an event was converted from: the timestamp's, then
    those of the data values by index. *)
Definition event_reads (d : sensors_event_t) : list Z :=
  match timestamp d with Some r => [rr_addr r] | None => [] end
  ++ map (fun ir : Z * raw_read => rr_addr (snd ir)) (map_to_list (data d)).

(** The channels of a device with their numbers [c = 0, 1, ...]. *)
Definition numbered (l : list iio_channel) : list (nat * iio_channel) :=
  imap (fun c ch => (c, ch)) l.

Section WithHeaders.
Context `{HalHeaders}.

(** [IioSensor::IioSensor]: [ty] and [fl] are what the device answers for its
    [greybus_type] and [flags] attributes. *)
Definition new (dev : iio_device) (handle ty fl : Z) : state :=
  {| sensor_handle := handle; sensor_type := ty; sensor_flags := fl;
     remaining_samples := 0; iio_dev := dev; iio_buf := None;
     channel_offset := ∅; trace := [] |}.

Definition hasSensor (handle : Z) (s : state) : bool :=
  sensor_handle s =? handle.

Definition computeChannelOffsets (s : state) : state :=
  set_channel_offset
    (fold_left
       (fun m (chan : iio_channel) =>
          let idx := chan_index chan in
          if (0 <=? idx) && chan_is_scan_element chan
          then <[idx := chan_first chan]> m else m)
       (dev_channels (iio_dev s)) (channel_offset s))
    s.

(** [if (channel_offset.size() == 0) computeChannelOffsets();] *)
Definition with_offsets (s : state) : state :=
  if decide (size (channel_offset s) = 0%nat) then computeChannelOffsets s else s.

(** The body of the channel loop of [readEvents] for channel number [c]. *)
Definition convert_channel (s : state) (start : Z) (d : sensors_event_t)
    (cc : nat * iio_channel) : sensors_event_t :=
  let '(c, chan) := cc in
  let index := chan_index chan in
  match chan_id chan with
  | Some chan_id =>
    if 0 <=? index then
      let src := {| rr_chan := c;
                    rr_addr := start + default 0 (channel_offset s !! index) |} in
      if String.eqb chan_id "timestamp"
      then set_timestamp (Some src) d
      else set_data (<[index := src]> (data d)) d
    else d
  | None => d
  end.

(** The event [readEvents] stores for the sample record at [start]. *)
Definition decode (s : state) (start : Z) : sensors_event_t :=
  let channels := Z.of_nat (length (dev_channels (iio_dev s))) in
  let d := {| version := sizeof_sensors_event_t; sensor := sensor_handle s;
              type := sensor_type s; timestamp := None; data := ∅;
              flags := 0 |} in
  fold_left (convert_channel s start)
    (firstn (Z.to_nat (Z.min channels MAX_CHANNELS))
       (numbered (dev_channels (iio_dev s))))
    d.

(** [for (copied = 0; copied < remaining_samples && copied < count;
         ++copied, start += sample_size)].  The loop makes at most [count]
    turns; [fuel] bounds them. *)
Fixpoint copy_loop (fuel : nat) (s : state) (count copied start : Z)
    (out : list sensors_event_t) : Z * list sensors_event_t :=
  match fuel with
  | O => (copied, out)
  | S fuel' =>
    if (copied <? remaining_samples s) && (copied <? count)
    then copy_loop fuel' s count (copied + 1)
           (start + dev_sample_size (iio_dev s)) (out ++ [decode s start])
    else (copied, out)
  end.

(** Where [readEvents] starts to read when it does not refill: the address
    it computes for [start] in the [else] branch. *)
Definition carry_over_start (s : state) : Z :=
  remaining_samples s * dev_sample_size (iio_dev s).

(** [IioSensor::readEvents]; [refill_ret] is what [iio_buffer_refill]
    answers if it is called. *)
Definition readEvents (refill_ret : Z) (count : Z) (s : state)
  : Z * list sensors_event_t * state :=
  let sample_size := dev_sample_size (iio_dev s) in
  let s0 := with_offsets s in
  let refilled :=
    if remaining_samples s0 =? 0 then
      let s1 := emit (BufferRefill (iio_buf s0)) s0 in
      let buffer_bytes := refill_ret in
      if buffer_bytes <? 0 then inl (emit (LogE_refill (- buffer_bytes)) s1)
      else inr (0, set_remaining_samples (to_int (buffer_bytes ÷ sample_size)) s1)
    else inr (carry_over_start s0, s0) in
  match refilled with
  | inl s1 => (to_int refill_ret, [], s1)
  | inr (start, s1) =>
    let '(copied, out) := copy_loop (Z.to_nat count) s1 count 0 start [] in
    (copied, out, set_remaining_samples (remaining_samples s1 - copied) s1)
  end.

Definition getFd (poll_fd : Z) (s : state) : Z :=
  match iio_buf s with Some _ => poll_fd | None => -1 end.

(** The scan channels [setEnable] switches: not output, scan element. *)
Definition input_scan_channels (s : state) : list nat :=
  map fst
    (filter (fun cc : nat * iio_channel =>
               negb (chan_is_output cc.2) && chan_is_scan_element cc.2 = true)
       (numbered (dev_channels (iio_dev s)))).

(** [IioSensor::setEnable]; [created] is what [iio_device_create_buffer]
    answers if it is called ([None]: NULL, with [errno] set). *)
Definition setEnable (created : option Z) (errno : Z) (handle enabled : Z)
    (s : state) : Z * state :=
  if negb (hasSensor handle s) then (- EINVAL, s)
  else if negb (enabled =? 0) then
    let s1 := emits (map ChannelEnable (input_scan_channels s)) s in
    match iio_buf s1 with
    | Some _ => (0, s1)
    | None =>
      let s2 := emit (CreateBuffer BUFFER_LEN false) s1 in
      match created with
      | None => (- errno, emit (LogE_create errno) s2)
      | Some b => (0, emit (SetBlockingMode b false) (set_iio_buf (Some b) s2))
      end
    end
  else
    let s1 := emits (map ChannelDisable (input_scan_channels s)) s in
    match iio_buf s1 with
    | Some b => (0, set_iio_buf None (emit (DestroyBuffer b) s1))
    | None => (0, s1)
    end.

(** [(double)ns] for a period [0 <= ns < 2^63]. *)
Definition double_of_period (ns : Z) : float :=
  PrimFloat.of_uint63 (Uint63.of_Z ns).

(** [chrono::duration<double>(1.0) / period]: both sides in nanoseconds as
    doubles, one second being [1.0 * 1000000000]. *)
Definition frequency (sampling_period_ns : Z) : float :=
  PrimFloat.div (PrimFloat.mul 1%float 1000000000%float)
                (double_of_period sampling_period_ns).

(** [IioSensor::batch]; [latency_ret] and [freq_ret] are what the two
    attribute writes answer.  The test [period < chrono::microseconds(1)]
    compares [(double)sampling_period_ns] with [1000.0]; the conversion is
    monotone and 999 and 1000 are doubles, so it is the integer test. *)
Definition batch (latency_ret freq_ret : Z)
    (handle flags sampling_period_ns max_report_latency_ns : Z) (s : state)
  : Z * state :=
  if negb (hasSensor handle s) || (sampling_period_ns <? 1000) then (- EINVAL, s)
  else
    let s1 := emit (AttrWriteLongLong "max_latency_ns" max_report_latency_ns) s in
    let freq := frequency sampling_period_ns in
    let s2 := emit (AttrWriteDouble "in_sampling_frequency" freq) s1 in
    (freq_ret, s2).

(** [IioSensor::flush]; [write_ret] is what the attribute write answers. *)
Definition flush (write_ret : Z) (handle : Z) (s : state) : Z * state :=
  if hasSensor handle s then
    if Z.land (sensor_flags s) REPORTING_MODE_MASK =? SENSOR_FLAG_ONE_SHOT_MODE
    then (- EINVAL, s)
    else (write_ret, emit (AttrWriteLongLong "flush" 1) s)
  else (- EINVAL, s).

End WithHeaders.

(** A sample shifted by [d] bytes. *)
Definition shift_read (d : Z) (r : raw_read) : raw_read :=
  {| rr_chan := rr_chan r; rr_addr := rr_addr r + d |}.

(** *** Discovery *)

(** What libiio tells about a device beyond its channels: whether it is a
    trigger, whether it has a [greybus_type] attribute, and what the
    constructor reads for its [greybus_type] and [flags] attributes. *)
Record iio_device_info := {
  di_device : iio_device;
  di_is_trigger : bool;
  di_has_greybus_type : bool;
  di_greybus_type : Z;
  di_flags : Z
}.

(** The loop of [isUsable]: [if (iio_channel_is_output(ch)) out_chan++]. *)
Definition count_output (chans : list iio_channel) : Z :=
  fold_left (fun out_chan ch => if chan_is_output ch then out_chan + 1 else out_chan)
    chans 0.

Definition isUsable (d : iio_device_info) : bool :=
  if di_is_trigger d then false
  else if negb (di_has_greybus_type d) then false
  else
    let nb_channels := Z.of_nat (length (dev_channels (di_device d))) in
    let out_chan := count_output (dev_channels (di_device d)) in
    3 <=? nb_channels - out_chan.

Section SensorList.
(** [FIRST_HANDLE] comes from a header that is not part of the file. *)
Variable FIRST_HANDLE : Z.

(** [make_shared<IioSensor>(iio_ctx, d, FIRST_HANDLE + i)] *)
Definition sensor_of (i : nat) (d : iio_device_info) : state :=
  new (di_device d) (to_int (FIRST_HANDLE + Z.of_nat i))
    (di_greybus_type d) (di_flags d).

(** The loop of [updateSensorList] from device number [i] on. *)
Fixpoint add_sensors (i : nat) (devs : list iio_device_info)
    (sensors : list state) : list state :=
  match devs with
  | [] => sensors
  | d :: devs' =>
    add_sensors (S i) devs'
      (if isUsable d then sensors ++ [sensor_of i d] else sensors)
  end.

(** [IioSensor::updateSensorList]; the context is the list of its devices,
    [None] when the pointer is null. *)
Definition updateSensorList (iio_ctx : option (list iio_device_info))
    (sensors : list state) : list state :=
  match iio_ctx with
  | None => sensors
  | Some devs => add_sensors 0 devs []
  end.

End SensorList.

(** *** The context *)

Inductive ctx_effect :=
| CreateLocalContext
| ContextSetTimeout (ctx : Z) (ms : Z).

(** [chrono::milliseconds(timeout).count()] for the timeout of 10 s. *)
Definition timeout_ms : Z := 10000.

(** [IioSensor::createIioContext]; [created] is the function's static flag,
    [local_ctx] what [iio_create_local_context] answers if it is called
    ([None]: NULL).  The result is the context returned, the flag, and the
    libiio calls made. *)
Definition createIioContext (local_ctx : option Z) (created : bool)
  : option Z * bool * list ctx_effect :=
  if created then (None, created, [])
  else
    (local_ctx, true,
     CreateLocalContext ::
       match local_ctx with
       | Some c => [ContextSetTimeout c timeout_ms]
       | None => []
       end).

(** The contexts a process gets from successive calls, libiio answering
    [answers] call by call. *)
Fixpoint createIioContext_calls (answers : list (option Z)) (created : bool)
  : list (option Z) :=
  match answers with
  | [] => []
  | a :: rest =>
    let '(ctx, created', _) := createIioContext a created in
    ctx :: createIioContext_calls rest created'
  end.

(** *** String attributes *)

Inductive heap_effect :=
| Malloc (size : Z)          (* malloc answered a buffer *)
| MallocFailed (size : Z)    (* malloc answered NULL *)
| Free
| Strdup.

(** What the device and the allocator answer to one [readIioStr]: the
    result and value of the length read, whether [malloc] works, the result
    of the string read and the string it leaves in the buffer. *)
Record attr_reads := {
  len_ret : Z;
  len_val : Z;
  malloc_ok : bool;
  str_ret : Z;
  str_val : string
}.

(** [IioSensor::readIioStr]: the string returned and the heap calls made. *)
Definition readIioStr (a : attr_reads) (defaultVal : string)
  : string * list heap_effect :=
  if len_ret a =? 0 then
    if len_val a <=? 0 then (defaultVal, [Strdup])
    else
      let len := len_val a + 1 in
      if malloc_ok a then
        let res := to_int (str_ret a) in        (* int res = ... *)
        if 0 <? res then (str_val a, [Malloc len])
        else (defaultVal, [Malloc len; Free; Strdup])
      else (defaultVal, [MallocFailed len; Strdup])
  else (defaultVal, [Strdup]).

(** The buffers live after a run of heap calls. *)
Definition live_buffers (l : list heap_effect) : Z :=
  fold_left (fun n e => match e with
                        | Malloc _ | Strdup => n + 1
                        | Free => n - 1
                        | MallocFailed _ => n
                        end) l 0.

End IioSensor.

(** * Sample values, to run the code on *)

(** One choice of the header constants; no theorem depends on it. *)
Definition sample_headers : HalHeaders :=
  {| ID_G := 1; EVENT_TYPE_GYRO_P := 3; EVENT_TYPE_GYRO_R := 4;
     EVENT_TYPE_GYRO_Y := 5; META_DATA_VERSION := 2;
     sizeof_sensors_event_t := 104; MAX_CHANNELS := 16; BUFFER_LEN := 32 |}.

(** A kernel that opens the device as descriptor 5 and whose ioctl works. *)
Definition sys_ok : GyroSensor.sys :=
  {| GyroSensor.open_ret := 5; GyroSensor.ioctl_ret := 0;
     GyroSensor.errno := 0; GyroSensor.ioctl_out := 0 |}.

(** A kernel that opens the device as descriptor 5 and whose ioctl fails
    with EIO. *)
Definition sys_eio : GyroSensor.sys :=
  {| GyroSensor.open_ret := 5; GyroSensor.ioctl_ret := -1;
     GyroSensor.errno := 5; GyroSensor.ioctl_out := 0 |}.

(** A gyroscope just constructed on a device that reports "disabled". *)
Definition gyro0 : GyroSensor.state := @GyroSensor.new sample_headers 7 sys_ok.

(** The same gyroscope after a successful enable. *)
Definition gyro_on : GyroSensor.state :=
  snd (GyroSensor.setEnable sys_ok 0 1 gyro0).

Definition ev_sync (sec usec : Z) : GyroSensor.input_event :=
  {| GyroSensor.ie_time := {| GyroSensor.tv_sec := sec; GyroSensor.tv_usec := usec |};
     GyroSensor.ie_type := EV_SYN; GyroSensor.ie_code := 0;
     GyroSensor.ie_value := 0 |}.

Definition ev_other (ty code : Z) : GyroSensor.input_event :=
  {| GyroSensor.ie_time := {| GyroSensor.tv_sec := 0; GyroSensor.tv_usec := 0 |};
     GyroSensor.ie_type := ty; GyroSensor.ie_code := code;
     GyroSensor.ie_value := 0 |}.

(** The loop of [readEvents] about to start with room for two events. *)
Definition loop0 : GyroSensor.loop_vars :=
  {| GyroSensor.lv_count := 2; GyroSensor.lv_num := 0;
     GyroSensor.lv_data := [];
     GyroSensor.lv_pending := @GyroSensor.pending_init sample_headers;
     GyroSensor.lv_log := [] |}.

(** A device whose sample record has 8 bytes: one data channel at offset 0
    and the timestamp channel at offset 4. *)
Definition dev8 : IioSensor.iio_device :=
  {| IioSensor.dev_channels :=
       [ {| IioSensor.chan_index := 0; IioSensor.chan_id := Some "accel_x"%string;
            IioSensor.chan_is_output := false;
            IioSensor.chan_is_scan_element := true; IioSensor.chan_first := 0 |};
         {| IioSensor.chan_index := 1; IioSensor.chan_id := Some "timestamp"%string;
            IioSensor.chan_is_output := false;
            IioSensor.chan_is_scan_element := true; IioSensor.chan_first := 4 |} ];
     IioSensor.dev_sample_size := 8 |}.

(** A sensor on [dev8] with handle 100, continuous reporting mode. *)
Definition iio0 : IioSensor.state := IioSensor.new dev8 100 65536 0.

(** A sensor on [dev8] with handle 100, one-shot reporting mode. *)
Definition iio_one_shot : IioSensor.state :=
  IioSensor.new dev8 100 65536 SENSOR_FLAG_ONE_SHOT_MODE.

(** [iio0] enabled: libiio hands out buffer 1. *)
Definition iio_on : IioSensor.state :=
  snd (@IioSensor.setEnable sample_headers (Some 1) 0 100 1 iio0).

(** A device with three channels that are not outputs: a data channel, the
    timestamp and the sampling frequency, which is no scan element. *)
Definition dev3 : IioSensor.iio_device :=
  {| IioSensor.dev_channels :=
       IioSensor.dev_channels dev8 ++
       [ {| IioSensor.chan_index := -1;
            IioSensor.chan_id := Some "sampling_frequency"%string;
            IioSensor.chan_is_output := false;
            IioSensor.chan_is_scan_element := false; IioSensor.chan_first := 0 |} ];
     IioSensor.dev_sample_size := 8 |}.

(** [dev3] as a greybus device, and [dev8], which has too few channels. *)
Definition info3 : IioSensor.iio_device_info :=
  {| IioSensor.di_device := dev3; IioSensor.di_is_trigger := false;
     IioSensor.di_has_greybus_type := true;
     IioSensor.di_greybus_type := 65536; IioSensor.di_flags := 0 |}.

Definition info8 : IioSensor.iio_device_info :=
  {| IioSensor.di_device := dev8; IioSensor.di_is_trigger := false;
     IioSensor.di_has_greybus_type := true;
     IioSensor.di_greybus_type := 65536; IioSensor.di_flags := 0 |}.

(** A device whose name attribute reads as the five characters "Accel". *)
Definition attr_ok : IioSensor.attr_reads :=
  {| IioSensor.len_ret := 0; IioSensor.len_val := 5;
     IioSensor.malloc_ok := true; IioSensor.str_ret := 5;
     IioSensor.str_val := "Accel"%string |}.

(** The same device when the string read fails. *)
Definition attr_read_fails : IioSensor.attr_reads :=
  {| IioSensor.len_ret := 0; IioSensor.len_val := 5;
     IioSensor.malloc_ok := true; IioSensor.str_ret := -5;
     IioSensor.str_val := ""%string |}.

(** * Properties of GyroSensor *)

Section GyroSensorProperties.
Import GyroSensor.
Context `{HalHeaders}.

Lemma truth_cases (e : Z) : truth e = 0 \/ truth e = 1.
Proof. unfold truth. destruct (e =? 0); auto. Qed.

(** ** setEnable *)

Lemma setEnable_same_state (k : sys) (handle en : Z) (s : state) :
  truth en = mEnabled s -> setEnable k handle en s = (0, s).
Proof.
  intros E. unfold setEnable. rewrite E, Z.eqb_refl. reflexivity.
Qed.

Lemma open_device_mEnabled (fd : Z) (s : state) :
  mEnabled (open_device fd s) = mEnabled s.
Proof. unfold open_device. destruct (dev_fd s <? 0); reflexivity. Qed.

Lemma close_device_mEnabled (s : state) :
  mEnabled (close_device s) = mEnabled s.
Proof. unfold close_device. destruct (0 <=? dev_fd s); reflexivity. Qed.

Lemma setEnable_failed_ioctl (k : sys) (handle en : Z) (s : state) :
  ioctl_ret k < 0 -> 0 < errno k ->
  mEnabled (snd (setEnable k handle en s)) = mEnabled s.
Proof.
  intros Hret Herr. unfold setEnable.
  destruct (truth en =? mEnabled s); [reflexivity|].
  apply Z.ltb_lt in Hret. rewrite Hret.
  assert (Hne : (- errno k =? 0) = false) by (apply Z.eqb_neq; lia).
  rewrite Hne. cbn [negb snd].
  destruct (truth en =? 0); cbn [negb];
    rewrite ?close_device_mEnabled; cbn [emit mEnabled];
    rewrite ?open_device_mEnabled; reflexivity.
Qed.

(** C10.  [setEnable] asked for the state the sensor is already in returns 0
    and leaves the object as it was, its trace of device operations
    included; and when the SET_ENABLE ioctl fails (a negative answer, errno
    set), [getEnable] reports after the call what it reported before. *)
Theorem gyro_setEnable_same_state_and_failed_ioctl
    (k : sys) (handle en : Z) (s : state) :
  (truth en = mEnabled s ->
     setEnable k handle en s = (0, s) /\
     trace (snd (setEnable k handle en s)) = trace s) /\
  (ioctl_ret k < 0 -> 0 < errno k ->
     getEnable handle (snd (setEnable k handle en s)) = getEnable handle s).
Proof.
  split.
  - intros E. rewrite (setEnable_same_state k handle en s E). auto.
  - intros Hret Herr. unfold getEnable. now apply setEnable_failed_ioctl.
Qed.

(** ** setDelay *)

Lemma setDelay_negative (k : sys) (handle ns : Z) (s : state) :
  ns < 0 -> setDelay k handle ns s = (- EINVAL, s).
Proof.
  intros Hns. unfold setDelay. apply Z.ltb_lt in Hns. now rewrite Hns.
Qed.

(** On a disabled sensor without a handle, a successful [setDelay] opens
    the device and closes it again. *)
Lemma setDelay_success_closes (k : sys) (handle ns : Z) (s : state) :
  0 <= ns -> mEnabled s = 0 -> dev_fd s = -1 -> 0 <= open_ret k ->
  ioctl_ret k = 0 ->
  fst (setDelay k handle ns s) = 0 /\
  dev_fd (snd (setDelay k handle ns s)) = -1 /\
  trace (snd (setDelay k handle ns s)) =
    trace s ++ [SysOpen (open_ret k);
                SysIoctl (open_ret k) L3G4200D_IOCTL_SET_DELAY (to_int (ns ÷ 1000000));
                SysClose (open_ret k)].
Proof.
  intros Hns Hen Hfd Hopen Hret.
  assert (E1 : (ns <? 0) = false) by (apply Z.ltb_ge; lia).
  assert (E2 : (0 <=? open_ret k) = true) by (apply Z.leb_le; lia).
  destruct s; cbn in Hen, Hfd; subst.
  unfold setDelay, open_device, close_device.
  rewrite E1, Hret; cbn. rewrite E2; cbn.
  rewrite <- !app_assoc. auto.
Qed.

(** On a disabled sensor without a handle, [setDelay] whose ioctl fails
    returns with the handle it opened still open: no close follows the
    ioctl. *)
Lemma setDelay_failure_leaves_open (k : sys) (handle ns : Z) (s : state) :
  0 <= ns -> mEnabled s = 0 -> dev_fd s = -1 -> ioctl_ret k <> 0 ->
  fst (setDelay k handle ns s) = - errno k /\
  dev_fd (snd (setDelay k handle ns s)) = open_ret k /\
  trace (snd (setDelay k handle ns s)) =
    trace s ++ [SysOpen (open_ret k);
                SysIoctl (open_ret k) L3G4200D_IOCTL_SET_DELAY (to_int (ns ÷ 1000000))].
Proof.
  intros Hns Hen Hfd Hret.
  assert (E1 : (ns <? 0) = false) by (apply Z.ltb_ge; lia).
  assert (E2 : (ioctl_ret k =? 0) = false) by (now apply Z.eqb_neq).
  destruct s; cbn in Hen, Hfd; subst.
  unfold setDelay, open_device.
  rewrite E1, E2; cbn. rewrite <- !app_assoc. auto.
Qed.

(** ** The reader and the loop of readEvents *)

Lemma to_int_small (x : Z) : INT_MIN <= x <= INT_MAX -> to_int x = x.
Proof.
  unfold to_int, wrap, INT_MIN, INT_MAX. intros Hx.
  change (2 ^ (32 - 1)) with 2147483648. change (2 ^ 32) with 4294967296.
  change (2 ^ 31) with 2147483648 in Hx.
  rewrite Z.mod_small by lia. lia.
Qed.

(** What [fill] leaves alone, and the sign of its answer. *)
Lemma fill_frame (r : read_outcome) (s : state) :
  mFlushEnabled (snd (fill r s)) = mFlushEnabled s /\
  mEnabled (snd (fill r s)) = mEnabled s /\
  mPendingEvent (snd (fill r s)) = mPendingEvent s /\
  mFlushEvent (snd (fill r s)) = mFlushEvent s /\
  dev_fd (snd (fill r s)) = dev_fd s.
Proof.
  unfold fill. destruct (reader_capacity - length (mInputReader s))%nat;
    [|destruct r]; cbn; auto.
Qed.

Lemma fill_negative (r : read_outcome) (s : state) :
  fst (fill r s) < 0 -> exists e, r = ReadFail e /\ fst (fill r s) = - e.
Proof.
  unfold fill. destruct (reader_capacity - length (mInputReader s))%nat;
    [|destruct r]; cbn; intros Hn; try lia; eauto.
Qed.

Lemma emits_frame (l : list effect) (s : state) :
  let s' := fold_left (fun a e => emit e a) l s in
  mFlushEnabled s' = mFlushEnabled s /\ mEnabled s' = mEnabled s /\
  mPendingEvent s' = mPendingEvent s /\ mFlushEvent s' = mFlushEvent s /\
  mInputReader s' = mInputReader s /\ dev_fd s' = dev_fd s /\
  trace s' = trace s ++ l.
Proof.
  revert s. induction l as [|e l IH]; intros s; cbn.
  - rewrite app_nil_r. tauto.
  - destruct (IH (emit e s)) as (A & B & C & D & E & F & G).
    cbn in *. rewrite A, B, C, D, E, F, G, <- app_assoc. tauto.
Qed.

Lemma processEvent_type (code value : Z) (p : sensors_event_t) :
  type (processEvent code value p) = type p.
Proof. unfold processEvent. repeat case_match; reflexivity. Qed.

(** One turn of the loop: the room left and the events counted move
    together, and an event is stored only as a copy of the pending sample. *)
Lemma loop_body_inv (enabled : Z) (ev : input_event) (v : loop_vars) :
  let v' := loop_body enabled ev v in
  lv_count v <> 0 -> 0 <= lv_count v ->
  0 <= lv_count v' /\
  lv_num v' + lv_count v' = lv_num v + lv_count v /\
  lv_num v <= lv_num v' /\
  type (lv_pending v') = type (lv_pending v) /\
  exists extra,
    lv_data v' = lv_data v ++ extra /\
    Z.of_nat (length extra) = lv_num v' - lv_num v /\
    Forall (fun e => type e = type (lv_pending v)) extra.
Proof.
  cbn zeta. intros Hne Hge. unfold loop_body.
  destruct (ie_type ev =? EV_REL); [|destruct (ie_type ev =? EV_SYN);
    [destruct (enabled =? 0)|]]; cbn [negb lv_count lv_num lv_data lv_pending].
  - rewrite processEvent_type. repeat split; try lia.
    exists []. rewrite app_nil_r. repeat split; [cbn; lia | constructor].
  - repeat split; try lia.
    exists []. rewrite app_nil_r. repeat split; [cbn; lia | constructor].
  - repeat split; try lia.
    eexists [_]. repeat split; [cbn; lia | repeat constructor].
  - repeat split; try lia.
    exists []. rewrite app_nil_r. repeat split; [cbn; lia | constructor].
Qed.

Lemma read_loop_inv (enabled : Z) (q : list input_event) (v : loop_vars) :
  let v' := snd (read_loop enabled q v) in
  0 <= lv_count v ->
  0 <= lv_count v' /\
  lv_num v' + lv_count v' = lv_num v + lv_count v /\
  lv_num v <= lv_num v' /\
  type (lv_pending v') = type (lv_pending v) /\
  exists extra,
    lv_data v' = lv_data v ++ extra /\
    Z.of_nat (length extra) = lv_num v' - lv_num v /\
    Forall (fun e => type e = type (lv_pending v)) extra.
Proof.
  cbn zeta. revert v. induction q as [|ev q IH]; intros v Hge; cbn [read_loop].
  - cbn [snd]. repeat split; try lia.
    exists []. rewrite app_nil_r. repeat split; [cbn; lia | constructor].
  - destruct (Z.eqb_spec (lv_count v) 0) as [E|E]; cbn [snd].
    + repeat split; try lia.
      exists []. rewrite app_nil_r. repeat split; [cbn; lia | constructor].
    + destruct (loop_body_inv enabled ev v E Hge)
        as (B1 & B2 & B3 & B4 & x1 & B5 & B6 & B7).
      destruct (IH (loop_body enabled ev v) B1)
        as (C1 & C2 & C3 & C4 & x2 & C5 & C6 & C7).
      repeat split; try lia; try congruence.
      exists (x1 ++ x2). repeat split.
      * rewrite C5, B5, app_assoc. reflexivity.
      * rewrite length_app. lia.
      * apply Forall_app. split; [assumption|].
        rewrite B4 in C7. assumption.
Qed.

(** ** readEvents as a whole *)

Lemma readEvents_small_count (r : read_outcome) (count : Z) (s : state) :
  count < 1 -> readEvents r count s = (- EINVAL, [], s).
Proof.
  intros Hc. unfold readEvents. apply Z.ltb_lt in Hc. now rewrite Hc.
Qed.

(** The shape of a call with room for at least one event: the flag is down
    afterwards, the marker (if the flag was up) comes first, whatever follows
    is a copy of the pending sample, and the answer is either the error of
    the failed read or the number of events stored, at most [count]. *)
Lemma readEvents_shape (r : read_outcome) (count : Z) (s : state) :
  1 <= count ->
  let res := readEvents r count s in
  mFlushEnabled (snd res) = 0 /\
  mFlushEvent (snd res) = mFlushEvent s /\
  type (mPendingEvent (snd res)) = type (mPendingEvent s) /\
  mEnabled (snd res) = mEnabled s /\
  exists extra,
    snd (fst res) = (if mFlushEnabled s =? 0 then [] else [mFlushEvent s]) ++ extra /\
    Forall (fun e => type e = type (mPendingEvent s)) extra /\
    ((exists e, r = ReadFail e /\ 0 < e /\ fst (fst res) = to_int (- e) /\ extra = []) \/
     (fst (fst res) = Z.of_nat (length (snd (fst res))) /\ fst (fst res) <= count)).
Proof.
  intros Hc. cbn zeta. unfold readEvents.
  assert (E1 : (count <? 1) = false) by (apply Z.ltb_ge; lia).
  assert (E2 : (count =? 0) = false) by (apply Z.eqb_neq; lia).
  rewrite E1, E2. cbn [negb andb].
  set (s1 := if negb (mFlushEnabled s =? 0) then set_mFlushEnabled 0 s else s).
  assert (F1 : mFlushEnabled s1 = 0 /\ mFlushEvent s1 = mFlushEvent s /\
               mPendingEvent s1 = mPendingEvent s /\ mEnabled s1 = mEnabled s).
  { subst s1. destruct (Z.eqb_spec (mFlushEnabled s) 0); cbn; auto. }
  destruct F1 as (F1 & F2 & F3 & F4).
  pose proof (fill_frame r s1) as (G1 & G2 & G3 & G4 & _).
  pose proof (fill_negative r s1) as Gneg.
  destruct (fill r s1) as [n s2]. cbn [fst snd] in *.
  destruct (Z.ltb_spec n 0) as [Hn|Hn].
  - cbn [fst snd]. rewrite G1, G4, G3, G2, F1, F2, F3, F4.
    repeat split; try reflexivity.
    exists []. rewrite app_nil_r. split; [|split; [constructor|left]].
    + destruct (mFlushEnabled s =? 0); reflexivity.
    + destruct (Gneg Hn) as (e & -> & ->). exists e.
      repeat split; auto; lia.
  - set (v0 := {| lv_count := _; lv_num := _; lv_data := _;
                  lv_pending := mPendingEvent s2; lv_log := [] |}).
    assert (Hv0 : 0 <= lv_count v0).
    { subst v0. cbn. destruct (mFlushEnabled s =? 0); cbn; lia. }
    pose proof (read_loop_inv (mEnabled s2) (mInputReader s2) v0 Hv0)
      as (I1 & I2 & I3 & I4 & extra & I5 & I6 & I7).
    destruct (read_loop (mEnabled s2) (mInputReader s2) v0) as [q v].
    cbn [fst snd] in *.
    pose proof (emits_frame (lv_log v)
                  (set_mPendingEvent (lv_pending v) (set_mInputReader q s2)))
      as (J1 & J2 & J3 & J4 & _).
    cbn zeta in J1, J2, J3, J4. rewrite J1, J2, J3, J4.
    cbn [set_mPendingEvent set_mInputReader mFlushEnabled mFlushEvent
         mPendingEvent mEnabled].
    rewrite G1, G4, G2, F1, F2, F4, I4.
    subst v0. cbn [lv_pending lv_data lv_num lv_count] in *.
    rewrite G3, F3 in *.
    repeat split; try reflexivity.
    exists extra. split; [|split; [assumption|right]].
    + rewrite I5. destruct (mFlushEnabled s =? 0); reflexivity.
    + rewrite I5, length_app.
      destruct (mFlushEnabled s =? 0); cbn [negb length] in *; split; lia.
Qed.

(** ** The flush marker *)

Lemma setEnable_frame (k : sys) (handle en : Z) (s : state) :
  mFlushEvent (snd (setEnable k handle en s)) = mFlushEvent s /\
  mPendingEvent (snd (setEnable k handle en s)) = mPendingEvent s.
Proof.
  unfold setEnable, open_device, close_device.
  repeat (case_match; cbn); auto.
Qed.

Lemma setDelay_frame (k : sys) (handle ns : Z) (s : state) :
  mFlushEvent (snd (setDelay k handle ns s)) = mFlushEvent s /\
  mPendingEvent (snd (setDelay k handle ns s)) = mPendingEvent s.
Proof.
  unfold setDelay, open_device, close_device.
  repeat (case_match; cbn); auto.
Qed.

Lemma step_frame (s s' : state) :
  step s s' ->
  mFlushEvent s' = mFlushEvent s /\
  type (mPendingEvent s') = type (mPendingEvent s).
Proof.
  intros [k handle en s0 | k handle ns s0 | handle s0 | r count s0].
  - destruct (setEnable_frame k handle en s0) as [-> ->]. auto.
  - destruct (setDelay_frame k handle ns s0) as [-> ->]. auto.
  - cbn. auto.
  - destruct (Z.lt_ge_cases count 1) as [Hc|Hc].
    + rewrite readEvents_small_count by assumption. auto.
    + destruct (readEvents_shape r count s0 Hc) as (_ & A & B & _). auto.
Qed.

(** Whatever was called since construction, the flush event is the one the
    constructor built and the pending sample is a gyroscope sample. *)
Lemma reachable_inv (s : state) :
  reachable s ->
  mFlushEvent s = flush_init /\ type (mPendingEvent s) = SENSOR_TYPE_GYROSCOPE.
Proof.
  induction 1 as [datafd k | s s' _ [IH1 IH2] Hstep].
  - unfold new, open_device, close_device. repeat (case_match; cbn); auto.
  - destruct (step_frame s s' Hstep) as [-> ->]. auto.
Qed.

Lemma count_markers_samples (l : list sensors_event_t) :
  Forall (fun e => type e = SENSOR_TYPE_GYROSCOPE) l -> count_markers l = 0%nat.
Proof.
  unfold count_markers. induction 1 as [|e l He _ IH]; [reflexivity|].
  rewrite filter_cons. case_decide as Hm; [exfalso|assumption].
  unfold is_flush_marker in Hm. rewrite He in Hm. discriminate Hm.
Qed.

Lemma count_markers_cons_marker (l : list sensors_event_t) :
  count_markers (flush_init :: l) = S (count_markers l).
Proof. unfold count_markers. rewrite filter_cons. reflexivity. Qed.

Lemma flushes_raised (handles : list Z) (s : state) :
  flushes handles (set_mFlushEnabled 1 s) = set_mFlushEnabled 1 s.
Proof.
  induction handles as [|h hs IH]; [reflexivity|]. exact IH.
Qed.

Lemma flushes_cons (handle : Z) (handles : list Z) (s : state) :
  flushes (handle :: handles) s = set_mFlushEnabled 1 s.
Proof. exact (flushes_raised handles s). Qed.

(** C4.  After one or more [flush] calls on a gyroscope in any state it can
    reach, a [readEvents] with room for at least one event stores the
    flush-complete marker as the first element, stores no second marker,
    and leaves the pending-flush flag down; the next [readEvents], with no
    [flush] in between, stores no marker. *)
Theorem gyro_flush_marker_once_and_first
    (s : state) (handle : Z) (handles : list Z) (r : read_outcome) (count : Z) :
  reachable s -> 1 <= count ->
  let res := readEvents r count (flushes (handle :: handles) s) in
  (exists rest, snd (fst res) = flush_init :: rest /\ count_markers rest = 0%nat) /\
  is_flush_marker flush_init = true /\
  count_markers (snd (fst res)) = 1%nat /\
  mFlushEnabled (snd res) = 0 /\
  (forall r' count',
     count_markers (snd (fst (readEvents r' count' (snd res)))) = 0%nat).
Proof.
  intros Hreach Hc. cbn zeta. rewrite flushes_cons.
  destruct (reachable_inv s Hreach) as [Hflush Hpend].
  destruct (readEvents_shape r count (set_mFlushEnabled 1 s) Hc)
    as (A & B & C & _ & extra & D & E & _).
  cbn [set_mFlushEnabled mFlushEnabled mFlushEvent mPendingEvent Z.eqb] in *.
  rewrite Hflush in *. rewrite Hpend in *.
  assert (Hextra : count_markers extra = 0%nat)
    by (now apply count_markers_samples).
  repeat split.
  - exists extra. split; [exact D | exact Hextra].
  - rewrite D. cbn [app]. rewrite count_markers_cons_marker, Hextra. reflexivity.
  - exact A.
  - intros r' count'.
    destruct (Z.lt_ge_cases count' 1) as [Hc'|Hc'].
    + rewrite readEvents_small_count by assumption. reflexivity.
    + destruct (readEvents_shape r' count'
                  (snd (readEvents r count (set_mFlushEnabled 1 s))) Hc')
        as (_ & _ & _ & _ & extra' & D' & E' & _).
      rewrite A in D'. cbn [Z.eqb app] in D'. rewrite D'.
      apply count_markers_samples. rewrite C in E'. exact E'.
Qed.

(** ** Sync events and unknown events *)

Lemma read_loop_full (enabled : Z) (q : list input_event) (v : loop_vars) :
  lv_count v = 0 -> snd (read_loop enabled q v) = v.
Proof.
  intros E. destruct q as [|ev q]; cbn [read_loop]; [reflexivity|].
  rewrite E. reflexivity.
Qed.

Lemma loop_body_unknown (enabled : Z) (ev : input_event) (v : loop_vars) :
  unknown_event ev = true ->
  loop_body enabled ev v =
    {| lv_count := lv_count v; lv_num := lv_num v; lv_data := lv_data v;
       lv_pending := lv_pending v;
       lv_log := lv_log v ++ [LogE_unknown_event (ie_type ev) (ie_code ev)] |}.
Proof.
  unfold unknown_event, loop_body. intros Hu.
  apply andb_true_iff in Hu as [H1 H2].
  apply negb_true_iff in H1, H2. rewrite H1, H2. reflexivity.
Qed.

Lemma loop_body_result (enabled : Z) (ev : input_event) (v1 v2 : loop_vars) :
  lv_result v1 = lv_result v2 ->
  lv_result (loop_body enabled ev v1) = lv_result (loop_body enabled ev v2).
Proof.
  destruct v1, v2. unfold lv_result. cbn. intros [= -> -> -> ->].
  unfold loop_body. cbn. repeat case_match; reflexivity.
Qed.

Lemma read_loop_result (enabled : Z) (q : list input_event) (v1 v2 : loop_vars) :
  lv_result v1 = lv_result v2 ->
  lv_result (snd (read_loop enabled q v1)) =
  lv_result (snd (read_loop enabled q v2)).
Proof.
  revert v1 v2. induction q as [|ev q IH]; intros v1 v2 E; cbn [read_loop].
  - exact E.
  - assert (Ec : lv_count v1 = lv_count v2) by (unfold lv_result in E; congruence).
    rewrite Ec. destruct (lv_count v2 =? 0); [exact E|].
    apply IH. now apply loop_body_result.
Qed.

(** Dropping the unknown events from the queue changes neither the events
    stored, nor their count, nor the pending sample. *)
Lemma read_loop_skips_unknown (enabled : Z) (q : list input_event) (v : loop_vars) :
  lv_result (snd (read_loop enabled (filter (fun e => unknown_event e = false) q) v)) =
  lv_result (snd (read_loop enabled q v)).
Proof.
  revert v. induction q as [|ev q IH]; intros v; [reflexivity|].
  rewrite filter_cons. case_decide as Hu; cbn [read_loop].
  - destruct (lv_count v =? 0); [reflexivity|]. apply IH.
  - apply not_false_is_true in Hu.
    destruct (Z.eqb_spec (lv_count v) 0) as [E|E].
    + cbn [snd]. rewrite read_loop_full by assumption. reflexivity.
    + rewrite IH. apply read_loop_result.
      rewrite loop_body_unknown by assumption. reflexivity.
Qed.

(** One turn of the loop on a sync event and on an event of unknown type,
    with room in the caller's array. *)
Lemma read_loop_head_event
    (enabled : Z) (ev : input_event) (q : list input_event) (v : loop_vars) :
  lv_count v <> 0 ->
  (ie_type ev = EV_SYN ->
     let p := set_timestamp (timevalToNano (ie_time ev)) (lv_pending v) in
     timestamp p = timevalToNano (ie_time ev) /\
     read_loop enabled (ev :: q) v =
       read_loop enabled q
         {| lv_count := if enabled =? 0 then lv_count v else lv_count v - 1;
            lv_num := if enabled =? 0 then lv_num v else lv_num v + 1;
            lv_data := if enabled =? 0 then lv_data v else lv_data v ++ [p];
            lv_pending := p; lv_log := lv_log v |}) /\
  (unknown_event ev = true ->
     read_loop enabled (ev :: q) v =
       read_loop enabled q
         {| lv_count := lv_count v; lv_num := lv_num v; lv_data := lv_data v;
            lv_pending := lv_pending v;
            lv_log := lv_log v ++ [LogE_unknown_event (ie_type ev) (ie_code ev)] |}) /\
  lv_result (snd (read_loop enabled
                    (filter (fun e => unknown_event e = false) (ev :: q)) v)) =
  lv_result (snd (read_loop enabled (ev :: q) v)).
Proof.
  intros Hc. apply Z.eqb_neq in Hc. split; [|split].
  - intros Hsyn p. split; [reflexivity|].
    cbn [read_loop]. rewrite Hc. unfold loop_body. rewrite Hsyn.
    cbn [EV_SYN EV_REL Z.eqb]. destruct (enabled =? 0); reflexivity.
  - intros Hu. cbn [read_loop]. rewrite Hc.
    rewrite loop_body_unknown by assumption. reflexivity.
  - apply read_loop_skips_unknown.
Qed.

(** ** A failed read after the marker was stored *)

(** With the pending-flush flag up and room in the reader, a [readEvents]
    whose read fails with errno [e] stores the marker, lowers the flag, and
    answers [-e]. *)
Lemma readEvents_marker_then_read_error (e count : Z) (s : state) :
  1 <= count -> mFlushEnabled s <> 0 -> 0 < e <= INT_MAX ->
  (length (mInputReader s) < reader_capacity)%nat ->
  readEvents (ReadFail e) count s =
    (- e, [mFlushEvent s], emit (SysRead (data_fd s)) (set_mFlushEnabled 0 s)).
Proof.
  intros Hc Hf He Hq. unfold readEvents.
  assert (E1 : (count <? 1) = false) by (apply Z.ltb_ge; lia).
  assert (E2 : (count =? 0) = false) by (apply Z.eqb_neq; lia).
  assert (E3 : (mFlushEnabled s =? 0) = false) by (now apply Z.eqb_neq).
  rewrite E1, E2, E3. cbn [negb andb]. unfold fill.
  cbn [set_mFlushEnabled mInputReader data_fd].
  destruct (reader_capacity - length (mInputReader s))%nat eqn:Hfree; [lia|].
  assert (E4 : (- e <? 0) = true) by (apply Z.ltb_lt; lia).
  rewrite E4, to_int_small; [reflexivity|].
  unfold INT_MIN, INT_MAX in *. lia.
Qed.

(** ** The answer of readEvents *)

Lemma gyro_readEvents_answer (r : read_outcome) (count : Z) (s : state) :
  read_outcome_int r ->
  (count < 1 -> fst (fst (readEvents r count s)) = - EINVAL) /\
  (1 <= count ->
     fst (fst (readEvents r count s)) < 0 \/
     0 <= fst (fst (readEvents r count s)) <= count).
Proof.
  intros Hr. split.
  - intros Hc. now rewrite readEvents_small_count.
  - intros Hc.
    destruct (readEvents_shape r count s Hc)
      as (_ & _ & _ & _ & extra & _ & _ & [(e & -> & Hpos & -> & _) | [-> Hle]]).
    + left. cbn in Hr. rewrite to_int_small; [lia|].
      unfold INT_MIN, INT_MAX in *. lia.
    + right. lia.
Qed.

End GyroSensorProperties.

(** * Properties of IioSensor *)

Section IioSensorProperties.
Import IioSensor.
Context `{HalHeaders}.

(** ** The copy loop *)

(** With fuel for [count - copied] turns the loop ends because its
    condition fails: it has then stored the records at [start],
    [start + sample_size], ... and counts [min remaining_samples count]
    of them (or none, when [copied] is already beyond that). *)
Lemma copy_loop_spec (fuel : nat) (s : state) (count copied start : Z)
    (out : list sensors_event_t) :
  (Z.to_nat (count - copied) <= fuel)%nat ->
  let res := copy_loop fuel s count copied start out in
  fst res = Z.max copied (Z.min (remaining_samples s) count) /\
  snd res =
    out ++ map (fun i => decode s (start + Z.of_nat i * dev_sample_size (iio_dev s)))
             (seq 0 (Z.to_nat (fst res - copied))).
Proof.
  cbn zeta. revert copied start out.
  induction fuel as [|fuel IH]; intros copied start out Hfuel; cbn [copy_loop].
  - cbn [fst snd]. replace (Z.max _ _) with copied by lia.
    rewrite Z.sub_diag. cbn. now rewrite app_nil_r.
  - destruct (Z.ltb_spec copied (remaining_samples s)) as [H1|H1];
      [destruct (Z.ltb_spec copied count) as [H2|H2]|]; cbn [andb fst snd].
    + destruct (IH (copied + 1) (start + dev_sample_size (iio_dev s))
                  (out ++ [decode s start]) ltac:(lia)) as [E1 E2].
      rewrite E2, E1. split; [lia|].
      replace (Z.to_nat (Z.max (copied + 1) (Z.min (remaining_samples s) count) - copied))
        with (S (Z.to_nat (Z.max (copied + 1) (Z.min (remaining_samples s) count)
                           - (copied + 1)))) by lia.
      rewrite <- app_assoc. cbn [seq map app]. f_equal.
      f_equal; [f_equal; lia|].
      rewrite <- seq_shift, map_map. apply map_ext. intros i. f_equal. lia.
    + replace (Z.max _ _) with copied by lia.
      rewrite Z.sub_diag. cbn. now rewrite app_nil_r.
    + replace (Z.max _ _) with copied by lia.
      rewrite Z.sub_diag. cbn. now rewrite app_nil_r.
Qed.

Lemma computeChannelOffsets_frame (s : state) :
  remaining_samples (computeChannelOffsets s) = remaining_samples s /\
  iio_dev (computeChannelOffsets s) = iio_dev s /\
  iio_buf (computeChannelOffsets s) = iio_buf s /\
  trace (computeChannelOffsets s) = trace s.
Proof. unfold computeChannelOffsets. cbn. auto. Qed.

(** ** readEvents *)

Lemma with_offsets_frame (s : state) :
  remaining_samples (with_offsets s) = remaining_samples s /\
  iio_dev (with_offsets s) = iio_dev s /\
  iio_buf (with_offsets s) = iio_buf s /\
  trace (with_offsets s) = trace s.
Proof.
  unfold with_offsets. case_decide; auto using computeChannelOffsets_frame.
Qed.

(** Samples are left over: no refill, the loop starts at
    [remaining_samples * sample_size]. *)
Lemma readEvents_carry_over (refill_ret count : Z) (s : state) :
  remaining_samples s <> 0 ->
  let s0 := with_offsets s in
  let copied := Z.max 0 (Z.min (remaining_samples s) count) in
  readEvents refill_ret count s =
    (copied,
     map (fun i => decode s0 (carry_over_start s
                              + Z.of_nat i * dev_sample_size (iio_dev s)))
       (seq 0 (Z.to_nat copied)),
     set_remaining_samples (remaining_samples s - copied) s0).
Proof.
  intros Hrem. cbn zeta. unfold readEvents.
  destruct (with_offsets_frame s) as (F1 & F2 & _).
  rewrite F1. apply Z.eqb_neq in Hrem. rewrite Hrem.
  pose proof (copy_loop_spec (Z.to_nat count) (with_offsets s) count 0
                (carry_over_start (with_offsets s)) [] ltac:(lia)) as [E1 E2].
  destruct (copy_loop _ _ _ _ _ _) as [copied out]. cbn [fst snd] in E1, E2.
  rewrite F1, F2 in *. subst copied. rewrite E2, Z.sub_0_r. cbn [app].
  unfold carry_over_start. rewrite F1, F2. reflexivity.
Qed.

(** No sample is left over and the refill works: the loop starts at the
    start of the buffer. *)
Lemma readEvents_refill_ok (refill_ret count : Z) (s : state) :
  remaining_samples s = 0 -> 0 <= refill_ret ->
  let s1 := set_remaining_samples
              (to_int (refill_ret ÷ dev_sample_size (iio_dev s)))
              (emit (BufferRefill (iio_buf s)) (with_offsets s)) in
  let copied := Z.max 0 (Z.min (remaining_samples s1) count) in
  readEvents refill_ret count s =
    (copied,
     map (fun i => decode s1 (0 + Z.of_nat i * dev_sample_size (iio_dev s)))
       (seq 0 (Z.to_nat copied)),
     set_remaining_samples (remaining_samples s1 - copied) s1).
Proof.
  intros Hrem Hret. cbn zeta. unfold readEvents.
  destruct (with_offsets_frame s) as (F1 & F2 & F3 & _).
  rewrite F1, F3, Hrem. cbn [Z.eqb].
  assert (E : (refill_ret <? 0) = false) by (apply Z.ltb_ge; lia). rewrite E.
  set (s1 := set_remaining_samples _ _).
  pose proof (copy_loop_spec (Z.to_nat count) s1 count 0 0 [] ltac:(lia))
    as [E1 E2].
  destruct (copy_loop _ _ _ _ _ _) as [copied out]. cbn [fst snd] in E1, E2.
  subst copied. rewrite E2, Z.sub_0_r. cbn [app].
  replace (iio_dev s1) with (iio_dev s) by (subst s1; cbn; congruence).
  reflexivity.
Qed.

(** No sample is left over and the refill fails: its error code is the
    answer and nothing is stored. *)
Lemma readEvents_refill_error (refill_ret count : Z) (s : state) :
  remaining_samples s = 0 -> refill_ret < 0 ->
  readEvents refill_ret count s =
    (to_int refill_ret, [],
     emit (LogE_refill (- refill_ret))
       (emit (BufferRefill (iio_buf s)) (with_offsets s))).
Proof.
  intros Hrem Hret. unfold readEvents.
  destruct (with_offsets_frame s) as (F1 & _ & F3 & _).
  rewrite F1, F3, Hrem. cbn [Z.eqb].
  apply Z.ltb_lt in Hret. rewrite Hret. reflexivity.
Qed.

(** The answer of [readEvents] for any [count]. *)
Lemma iio_readEvents_answer (refill_ret count : Z) (s : state) :
  INT_MIN <= refill_ret ->
  let res := readEvents refill_ret count s in
  (count < 1 ->
     (remaining_samples s = 0 /\ refill_ret < 0 /\ fst (fst res) = refill_ret) \/
     (fst (fst res) = 0 /\ snd (fst res) = [])) /\
  (1 <= count -> fst (fst res) < 0 \/ 0 <= fst (fst res) <= count).
Proof.
  intros Hmin. cbn zeta.
  destruct (Z.eq_dec (remaining_samples s) 0) as [Hrem|Hrem].
  - destruct (Z.lt_ge_cases refill_ret 0) as [Hret|Hret].
    + rewrite readEvents_refill_error by assumption. cbn [fst snd].
      rewrite to_int_small by (unfold INT_MAX; lia). split; intros; left; auto.
    + rewrite readEvents_refill_ok by assumption. cbn [fst snd]. split; intros Hc.
      * right. replace (Z.max 0 _) with 0 by lia. auto.
      * right. lia.
  - rewrite readEvents_carry_over by assumption. cbn [fst snd]. split; intros Hc.
    + right. replace (Z.max 0 _) with 0 by lia. auto.
    + right. lia.
Qed.

(** Of [fetched] records, [delivered] went out and the rest remains: the
    address the carry-over branch starts at is the address of the first
    record not yet delivered only when exactly half of the records went
    out. *)
Lemma carry_over_start_vs_delivered (fetched delivered : Z) (s : state) :
  remaining_samples s = fetched - delivered ->
  dev_sample_size (iio_dev s) <> 0 ->
  carry_over_start s = delivered * dev_sample_size (iio_dev s) <->
  fetched = 2 * delivered.
Proof.
  intros Hrem Hss. unfold carry_over_start. rewrite Hrem. split.
  - intros E. apply Z.mul_cancel_r in E; [lia | assumption].
  - intros ->. f_equal. lia.
Qed.

(** Counts are conserved: what a call answers is taken off
    [remaining_samples]. *)
Lemma readEvents_count_conserved (refill_ret count : Z) (s : state) :
  remaining_samples s <> 0 ->
  remaining_samples (snd (readEvents refill_ret count s)) =
    remaining_samples s - fst (fst (readEvents refill_ret count s)) /\
  trace (snd (readEvents refill_ret count s)) = trace s.
Proof.
  intros Hrem. rewrite readEvents_carry_over by assumption. cbn.
  destruct (with_offsets_frame s) as (_ & _ & _ & F4). auto.
Qed.

(** ** setEnable *)

Lemma emits_frame_iio (es : list effect) (s : state) :
  remaining_samples (emits es s) = remaining_samples s /\
  iio_buf (emits es s) = iio_buf s /\
  trace (emits es s) = trace s ++ es.
Proof.
  unfold emits. revert s. induction es as [|e es IH]; intros s; cbn.
  - now rewrite app_nil_r.
  - destruct (IH (emit e s)) as (A & B & C). rewrite A, B, C. cbn.
    now rewrite <- app_assoc.
Qed.

(** [setEnable] never writes [remaining_samples]: neither when it destroys
    the buffer nor when it creates a new one. *)
Lemma setEnable_remaining_samples (created : option Z) (errno handle enabled : Z)
    (s : state) :
  remaining_samples (snd (setEnable created errno handle enabled s)) =
  remaining_samples s.
Proof.
  unfold setEnable.
  destruct (hasSensor handle s); cbn [negb snd]; [|reflexivity].
  destruct (enabled =? 0); cbn [negb].
  - pose proof (emits_frame_iio (map ChannelDisable (input_scan_channels s)) s)
      as (A & _ & _).
    destruct (iio_buf _); cbn; exact A.
  - pose proof (emits_frame_iio (map ChannelEnable (input_scan_channels s)) s)
      as (A & _ & _).
    destruct (iio_buf _); [|destruct created]; cbn; exact A.
Qed.

(** An enable without a buffer that libiio serves creates the buffer. *)
Lemma setEnable_creates_buffer (b errno handle enabled : Z) (s : state) :
  hasSensor handle s = true -> enabled <> 0 -> iio_buf s = None ->
  fst (setEnable (Some b) errno handle enabled s) = 0 /\
  iio_buf (snd (setEnable (Some b) errno handle enabled s)) = Some b.
Proof.
  intros Hh Hen Hbuf. unfold setEnable. rewrite Hh.
  apply Z.eqb_neq in Hen. rewrite Hen. cbn [negb].
  pose proof (emits_frame_iio (map ChannelEnable (input_scan_channels s)) s)
    as (_ & B & _).
  rewrite B, Hbuf. cbn. auto.
Qed.

(** Disable, then enable: whatever was left over before is still counted
    as left over, and the first [readEvents] afterwards calls no refill. *)
Lemma reenable_reads_without_refill
    (created : option Z) (errno handle refill_ret count : Z) (s : state) :
  remaining_samples s <> 0 ->
  let off := snd (setEnable None errno handle 0 s) in
  let on := snd (setEnable created errno handle 1 off) in
  remaining_samples on = remaining_samples s /\
  trace (snd (readEvents refill_ret count on)) = trace on.
Proof.
  intros Hrem. cbn zeta.
  assert (E : remaining_samples
                (snd (setEnable created errno handle 1
                        (snd (setEnable None errno handle 0 s)))) =
              remaining_samples s)
    by (now rewrite !setEnable_remaining_samples).
  split; [exact E|].
  apply readEvents_count_conserved. now rewrite E.
Qed.

(** ** flush *)

(** C5.  On a sensor whose reporting-mode bits say one-shot, [flush] with the
    sensor's own handle answers [-EINVAL] and leaves the object as it was:
    nothing is written to the device, the trace is the same. *)
Theorem iio_flush_one_shot_rejected (write_ret handle : Z) (s : state) :
  hasSensor handle s = true ->
  Z.land (sensor_flags s) REPORTING_MODE_MASK = SENSOR_FLAG_ONE_SHOT_MODE ->
  flush write_ret handle s = (- EINVAL, s) /\
  trace (snd (flush write_ret handle s)) = trace s.
Proof.
  intros Hh Hmode. unfold flush. rewrite Hh, Hmode, Z.eqb_refl. auto.
Qed.

(** Any other sensor writes 1 to its [flush] attribute and answers what the
    write answered. *)
Lemma iio_flush_other_modes (write_ret handle : Z) (s : state) :
  hasSensor handle s = true ->
  Z.land (sensor_flags s) REPORTING_MODE_MASK <> SENSOR_FLAG_ONE_SHOT_MODE ->
  flush write_ret handle s = (write_ret, emit (AttrWriteLongLong "flush" 1) s).
Proof.
  intros Hh Hmode. unfold flush. apply Z.eqb_neq in Hmode.
  rewrite Hh, Hmode. reflexivity.
Qed.

(** ** batch *)

Lemma frequency_examples :
  frequency 1000 = 1000000%float /\
  frequency 20000000 = 50%float /\
  frequency 1000000000 = 1%float.
Proof. repeat split; reflexivity. Qed.

(** C6, as the code has it.  [batch] answers [-EINVAL], and writes nothing,
    to every sampling period under 1000 ns and to every handle that is not
    the sensor's own.  For a period of at least 1000 ns on the sensor's own
    handle it writes [max_latency_ns], then [in_sampling_frequency] with the
    double [1e9 / (double) period], one second in nanoseconds over the
    period, and answers what the frequency write answered, whatever the
    latency write answered.  For a period that an [int64_t] holds that
    double is the IEEE 754 quotient of 1e9 by the period rounded to a
    double.  A period of 500000 ns writes 2000.0. *)
Theorem iio_batch_period_and_frequency
    (latency_ret freq_ret handle flags period latency : Z) (s : state) :
  (period < 1000 \/ handle <> sensor_handle s ->
     batch latency_ret freq_ret handle flags period latency s = (- EINVAL, s)) /\
  (handle = sensor_handle s -> 1000 <= period ->
     batch latency_ret freq_ret handle flags period latency s =
       (freq_ret,
        emits [AttrWriteLongLong "max_latency_ns" latency;
               AttrWriteDouble "in_sampling_frequency"
                 (PrimFloat.div 1000000000%float
                    (PrimFloat.of_uint63 (Uint63.of_Z period)))] s) /\
     (period < 2 ^ 63 ->
        Prim2SF (PrimFloat.div 1000000000%float
                   (PrimFloat.of_uint63 (Uint63.of_Z period))) =
        SF64div (Prim2SF 1000000000%float)
          (binary_normalize prec emax period 0 false))) /\
  (handle = sensor_handle s ->
     batch latency_ret freq_ret handle flags 500000 latency s =
       (freq_ret,
        emits [AttrWriteLongLong "max_latency_ns" latency;
               AttrWriteDouble "in_sampling_frequency" 2000%float] s)).
Proof.
  split; [|split].
  - intros [Hp | Hh]; unfold batch.
    + apply Z.ltb_lt in Hp. rewrite Hp. now rewrite orb_true_r.
    + assert (E : hasSensor handle s = false)
        by (unfold hasSensor; apply Z.eqb_neq; congruence).
      rewrite E. reflexivity.
  - intros -> Hp. split.
    + unfold batch, hasSensor. rewrite Z.eqb_refl.
      assert (E : (period <? 1000) = false) by (apply Z.ltb_ge; lia).
      rewrite E. reflexivity.
    + intros Hmax.
      rewrite FloatAxioms.div_spec, FloatAxioms.of_uint63_spec, Uint63.of_Z_spec.
      rewrite Z.mod_small; [reflexivity|].
      change Uint63Axioms.wB with (2 ^ 63). lia.
  - intros ->. unfold batch, hasSensor. rewrite Z.eqb_refl. reflexivity.
Qed.

End IioSensorProperties.

(** * Both sensors *)

Section ReadEventsContract.
Context `{HalHeaders}.

(** C3, as the code has it.  [GyroSensor::readEvents] answers [-EINVAL] to
    every [count < 1].  [IioSensor::readEvents] has no such test: for
    [count < 1] it stores nothing and answers 0, or, when it had to refill
    and the refill failed, the error code of the refill.  For every
    [count >= 1] both answer a negative error code or a number in
    [[0, count]].  (Error codes are [int]s: the errno of a failed read is at
    most [INT_MAX], the answer of a refill at least [INT_MIN].) *)
Theorem readEvents_capacity_contract
    (r : GyroSensor.read_outcome) (refill_ret count : Z)
    (g : GyroSensor.state) (i : IioSensor.state) :
  GyroSensor.read_outcome_int r -> INT_MIN <= refill_ret ->
  let gret := fst (fst (GyroSensor.readEvents r count g)) in
  let ires := IioSensor.readEvents refill_ret count i in
  (count < 1 ->
     gret = - EINVAL /\
     ((IioSensor.remaining_samples i = 0 /\ refill_ret < 0 /\
       fst (fst ires) = refill_ret) \/
      (fst (fst ires) = 0 /\ snd (fst ires) = []))) /\
  (1 <= count ->
     (gret < 0 \/ 0 <= gret <= count) /\
     (fst (fst ires) < 0 \/ 0 <= fst (fst ires) <= count)).
Proof.
  intros Hr Hmin. cbn zeta.
  destruct (gyro_readEvents_answer r count g Hr) as [G1 G2].
  destruct (iio_readEvents_answer refill_ret count i Hmin) as [I1 I2].
  split; intros Hc; split; auto.
Qed.

End ReadEventsContract.

(** * The code on the sample values *)

(** ** GyroSensor *)

(** C2, on the code.  The flag is up, there is room for four events and the
    read fails with EIO: the marker is stored and the flag lowered, but the
    answer is -5, not 1; the next call, whose read works, has no marker
    to give. *)
Theorem gyro_readEvents_marker_lost_on_read_error :
  let s1 := snd (GyroSensor.flush 0 gyro_on) in
  let r1 := @GyroSensor.readEvents sample_headers (GyroSensor.ReadFail 5) 4 s1 in
  let r2 := @GyroSensor.readEvents sample_headers (GyroSensor.ReadData []) 4 (snd r1) in
  fst (fst r1) = -5 /\
  snd (fst r1) = [@GyroSensor.flush_init sample_headers] /\
  GyroSensor.mFlushEnabled (snd r1) = 0 /\
  fst (fst r2) = 0 /\
  snd (fst r2) = [].
Proof.
  cbn zeta.
  rewrite (@readEvents_marker_then_read_error sample_headers 5 4
             (snd (GyroSensor.flush 0 gyro_on)));
    [| lia | discriminate | unfold INT_MAX; lia | vm_compute; lia].
  repeat split; reflexivity.
Qed.

(** C8, on the code.  The sensor is disabled and holds no handle; [setDelay]
    opens the device as descriptor 5, the SET_DELAY ioctl fails with EIO,
    and the call answers -5 with descriptor 5 still open: the trace ends
    with the ioctl, no close follows. *)
Theorem gyro_setDelay_leaves_handle_open_on_ioctl_error :
  let res := GyroSensor.setDelay sys_eio 0 3000000 gyro0 in
  GyroSensor.mEnabled gyro0 = 0 /\
  GyroSensor.dev_fd gyro0 = -1 /\
  fst res = -5 /\
  GyroSensor.dev_fd (snd res) = 5 /\
  GyroSensor.trace (snd res) =
    GyroSensor.trace gyro0 ++
      [GyroSensor.SysOpen 5;
       GyroSensor.SysIoctl 5 GyroSensor.L3G4200D_IOCTL_SET_DELAY 3].
Proof.
  cbn zeta. split; [reflexivity|]. split; [reflexivity|].
  apply (setDelay_failure_leaves_open sys_eio 0 3000000 gyro0);
    [lia | reflexivity | reflexivity | discriminate].
Qed.

(** C10 on the enabled gyroscope asked to enable, and on the disabled one
    whose ioctl fails. *)
Lemma gyro_setEnable_witness :
  (GyroSensor.setEnable sys_eio 0 1 gyro_on = (0, gyro_on) /\
   GyroSensor.trace (snd (GyroSensor.setEnable sys_eio 0 1 gyro_on)) =
     GyroSensor.trace gyro_on) /\
  GyroSensor.getEnable 0 (snd (GyroSensor.setEnable sys_eio 0 1 gyro0)) =
    GyroSensor.getEnable 0 gyro0.
Proof.
  split.
  - apply (proj1 (gyro_setEnable_same_state_and_failed_ioctl sys_eio 0 1 gyro_on)).
    reflexivity.
  - apply (proj2 (gyro_setEnable_same_state_and_failed_ioctl sys_eio 0 1 gyro0));
      cbn; lia.
Defined.

(** The enabled sample gyroscope is one setEnable away from construction. *)
Lemma gyro_on_reachable : @GyroSensor.reachable sample_headers gyro_on.
Proof.
  apply (GyroSensor.reach_step gyro0).
  - apply GyroSensor.reach_new.
  - apply GyroSensor.step_setEnable.
Defined.

(** C4 on the enabled gyroscope: two flush calls, then a read of two sync
    events. *)
Lemma gyro_flush_marker_witness :
  let res := @GyroSensor.readEvents sample_headers
               (GyroSensor.ReadData [ev_sync 1 2; ev_sync 3 4]) 4
               (GyroSensor.flushes [0; 0] gyro_on) in
  (exists rest,
     snd (fst res) = @GyroSensor.flush_init sample_headers :: rest /\
     GyroSensor.count_markers rest = 0%nat) /\
  GyroSensor.is_flush_marker (@GyroSensor.flush_init sample_headers) = true /\
  GyroSensor.count_markers (snd (fst res)) = 1%nat /\
  GyroSensor.mFlushEnabled (snd res) = 0 /\
  (forall r' count',
     GyroSensor.count_markers
       (snd (fst (@GyroSensor.readEvents sample_headers r' count' (snd res)))) = 0%nat).
Proof.
  apply (@gyro_flush_marker_once_and_first sample_headers gyro_on 0 [0]
           (GyroSensor.ReadData [ev_sync 1 2; ev_sync 3 4]) 4
           gyro_on_reachable).
  lia.
Defined.

(** ** IioSensor *)

(** C1, on the code.  The refill answers 24 bytes, three records of 8 bytes
    at addresses 0, 8 and 16.  A first call with room for two events stores
    the records at 0 and 8 and leaves [remaining_samples] at 1.  The second
    call does not refill, starts at [1 * 8] and stores the record at 8 once
    more: that record is delivered twice, the record at 16 never.  The
    counts add up to 3 all the same. *)
Theorem iio_readEvents_carry_over_rereads_record :
  let r1 := @IioSensor.readEvents sample_headers 24 2 iio_on in
  let r2 := @IioSensor.readEvents sample_headers 24 5 (snd r1) in
  fst (fst r1) = 2 /\
  map IioSensor.event_reads (snd (fst r1)) = [[4; 0]; [12; 8]] /\
  IioSensor.remaining_samples (snd r1) = 1 /\
  IioSensor.carry_over_start (snd r1) = 8 /\
  IioSensor.trace (snd r2) = IioSensor.trace (snd r1) /\
  fst (fst r2) = 1 /\
  map IioSensor.event_reads (snd (fst r2)) = [[12; 8]] /\
  IioSensor.remaining_samples (snd r2) = 0.
Proof. cbn zeta. vm_compute. repeat split; reflexivity. Qed.

(** C7, on the code.  Three records are fetched and two delivered; the
    sensor is disabled, which destroys buffer 1, and enabled again, which
    creates buffer 2.  [remaining_samples] is still 1: the first
    [readEvents] on the new buffer does not refill it (the trace gains no
    entry) and stores one event, converted from address 8 of a buffer that
    was never filled. *)
Theorem iio_reenable_keeps_remaining_samples :
  let r1 := @IioSensor.readEvents sample_headers 24 2 iio_on in
  let off := snd (@IioSensor.setEnable sample_headers None 0 100 0 (snd r1)) in
  let on := snd (@IioSensor.setEnable sample_headers (Some 2) 0 100 1 off) in
  let r2 := @IioSensor.readEvents sample_headers 24 5 on in
  IioSensor.iio_buf (snd r1) = Some 1 /\
  IioSensor.iio_buf off = None /\
  IioSensor.iio_buf on = Some 2 /\
  last (IioSensor.trace on) = Some (IioSensor.SetBlockingMode 2 false) /\
  IioSensor.remaining_samples on = 1 /\
  IioSensor.trace (snd r2) = IioSensor.trace on /\
  fst (fst r2) = 1 /\
  map IioSensor.event_reads (snd (fst r2)) = [[12; 8]].
Proof. cbn zeta. vm_compute. repeat split; reflexivity. Qed.

(** C3, as stated, fails on [IioSensor::readEvents]: with [count = 0] the
    enabled sensor refills and answers 0, which is not [-EINVAL]. *)
Lemma iio_readEvents_zero_count_not_rejected :
  fst (fst (@IioSensor.readEvents sample_headers 24 0 iio_on)) = 0 /\
  fst (fst (@IioSensor.readEvents sample_headers 24 0 iio_on)) <> - EINVAL.
Proof. vm_compute. split; [reflexivity | discriminate]. Qed.

(** C3 as amended, at [count = 0] and at [count = 2]. *)
Lemma readEvents_capacity_contract_witness :
  (fst (fst (@GyroSensor.readEvents sample_headers (GyroSensor.ReadFail 5) 0 gyro_on))
     = - EINVAL /\
   ((IioSensor.remaining_samples iio_on = 0 /\ -5 < 0 /\
     fst (fst (@IioSensor.readEvents sample_headers (-5) 0 iio_on)) = -5) \/
    (fst (fst (@IioSensor.readEvents sample_headers (-5) 0 iio_on)) = 0 /\
     snd (fst (@IioSensor.readEvents sample_headers (-5) 0 iio_on)) = []))) /\
  ((fst (fst (@GyroSensor.readEvents sample_headers (GyroSensor.ReadFail 5) 2 gyro_on)) < 0 \/
    0 <= fst (fst (@GyroSensor.readEvents sample_headers (GyroSensor.ReadFail 5) 2 gyro_on)) <= 2) /\
   (fst (fst (@IioSensor.readEvents sample_headers 24 2 iio_on)) < 0 \/
    0 <= fst (fst (@IioSensor.readEvents sample_headers 24 2 iio_on)) <= 2)).
Proof.
  split.
  - apply (proj1 (@readEvents_capacity_contract sample_headers
                    (GyroSensor.ReadFail 5) (-5) 0 gyro_on iio_on
                    ltac:(cbn; unfold INT_MAX; lia) ltac:(unfold INT_MIN; lia))).
    lia.
  - apply (proj2 (@readEvents_capacity_contract sample_headers
                    (GyroSensor.ReadFail 5) 24 2 gyro_on iio_on
                    ltac:(cbn; unfold INT_MAX; lia) ltac:(unfold INT_MIN; lia))).
    lia.
Defined.

(** C5 on the one-shot sample sensor. *)
Lemma iio_flush_one_shot_witness :
  IioSensor.flush 0 100 iio_one_shot = (- EINVAL, iio_one_shot) /\
  IioSensor.trace (snd (IioSensor.flush 0 100 iio_one_shot)) =
    IioSensor.trace iio_one_shot.
Proof.
  apply (iio_flush_one_shot_rejected 0 100 iio_one_shot); reflexivity.
Defined.

(** C6, as stated, fails on a valid period with a handle that is not the
    sensor's own: both attribute writes would answer 0, the period is
    500000 ns, the sensor has handle 100 and the call names handle 5; the
    answer is [-EINVAL], not the 0 of the frequency write, and nothing is
    written. *)
Lemma iio_batch_foreign_handle_writes_nothing :
  IioSensor.batch 0 0 5 0 500000 0 iio_on = (- EINVAL, iio_on) /\
  fst (IioSensor.batch 0 0 5 0 500000 0 iio_on) <> 0 /\
  IioSensor.trace (snd (IioSensor.batch 0 0 5 0 500000 0 iio_on)) =
    IioSensor.trace iio_on.
Proof. vm_compute. repeat split; try reflexivity. discriminate. Qed.

(** C6 as amended: at 999 ns; at 20 ms with the latency write failing; and
    at 500000 ns. *)
Lemma iio_batch_witness :
  IioSensor.batch 0 0 100 0 999 0 iio_on = (- EINVAL, iio_on) /\
  IioSensor.batch (-5) 0 100 0 20000000 0 iio_on =
    (0, IioSensor.emits
          [IioSensor.AttrWriteLongLong "max_latency_ns" 0;
           IioSensor.AttrWriteDouble "in_sampling_frequency" 50%float] iio_on) /\
  IioSensor.batch (-5) 0 100 0 500000 0 iio_on =
    (0, IioSensor.emits
          [IioSensor.AttrWriteLongLong "max_latency_ns" 0;
           IioSensor.AttrWriteDouble "in_sampling_frequency" 2000%float] iio_on).
Proof.
  split; [|split].
  - apply (proj1 (iio_batch_period_and_frequency 0 0 100 0 999 0 iio_on)).
    left. lia.
  - apply (proj1 (proj1 (proj2 (iio_batch_period_and_frequency
                                  (-5) 0 100 0 20000000 0 iio_on))
                    eq_refl ltac:(lia))).
  - apply (proj2 (proj2 (iio_batch_period_and_frequency (-5) 0 100 0 500000 0 iio_on))).
    reflexivity.
Defined.

(** * More of GyroSensor *)

Section GyroSensorMore.
Import GyroSensor.
Context `{HalHeaders}.

(** ** readEvents, once the read has worked *)

Lemma fill_flag_irrelevant (r : read_outcome) (v : Z) (s : state) :
  fst (fill r (set_mFlushEnabled v s)) = fst (fill r s) /\
  mInputReader (snd (fill r (set_mFlushEnabled v s))) = mInputReader (snd (fill r s)).
Proof.
  unfold fill. cbn [set_mFlushEnabled mInputReader data_fd].
  destruct (reader_capacity - length (mInputReader s))%nat; [|destruct r];
    cbn; auto.
Qed.

(** With room for an event and a read that did not fail, [readEvents] is
    the loop run on the reader as [fill] left it. *)
Lemma readEvents_run (r : read_outcome) (count : Z) (s : state) :
  1 <= count -> 0 <= fst (fill r s) ->
  let v0 := {| lv_count := count - marker_room s; lv_num := marker_room s;
               lv_data := if mFlushEnabled s =? 0 then [] else [mFlushEvent s];
               lv_pending := mPendingEvent s; lv_log := [] |} in
  let qv := read_loop (mEnabled s) (reader_after_fill r s) v0 in
  fst (fst (readEvents r count s)) = lv_num (snd qv) /\
  snd (fst (readEvents r count s)) = lv_data (snd qv) /\
  mInputReader (snd (readEvents r count s)) = fst qv /\
  mPendingEvent (snd (readEvents r count s)) = lv_pending (snd qv).
Proof.
  intros Hc Hn. cbn zeta. unfold readEvents, marker_room, reader_after_fill.
  assert (E1 : (count <? 1) = false) by (apply Z.ltb_ge; lia).
  assert (E2 : (count =? 0) = false) by (apply Z.eqb_neq; lia).
  rewrite E1, E2. cbn [negb andb].
  set (s1 := if negb (mFlushEnabled s =? 0) then set_mFlushEnabled 0 s else s).
  assert (F : fst (fill r s1) = fst (fill r s) /\
              mInputReader (snd (fill r s1)) = mInputReader (snd (fill r s)) /\
              mEnabled s1 = mEnabled s /\ mPendingEvent s1 = mPendingEvent s).
  { subst s1. destruct (mFlushEnabled s =? 0); cbn [negb]; [auto|].
    destruct (fill_flag_irrelevant r 0 s). auto. }
  destruct F as (F1 & F2 & F3 & F4).
  pose proof (fill_frame r s1) as (_ & G2 & G3 & _).
  destruct (fill r s1) as [n s2]. cbn [fst snd] in *.
  assert (E3 : (n <? 0) = false) by (apply Z.ltb_ge; lia). rewrite E3.
  rewrite G2, G3, F2, F3, F4.
  replace (if negb (mFlushEnabled s =? 0) then count - 1 else count)
    with (count - (if mFlushEnabled s =? 0 then 0 else 1))
    by (destruct (mFlushEnabled s =? 0); cbn; lia).
  replace (if negb (mFlushEnabled s =? 0) then 1 else 0)
    with (if mFlushEnabled s =? 0 then 0 else 1)
    by (destruct (mFlushEnabled s =? 0); reflexivity).
  replace (if negb (mFlushEnabled s =? 0) then [mFlushEvent s] else [])
    with (if mFlushEnabled s =? 0 then [] else [mFlushEvent s])
    by (destruct (mFlushEnabled s =? 0); reflexivity).
  destruct (read_loop _ _ _) as [q v]. cbn [fst snd].
  pose proof (emits_frame (lv_log v)
                (set_mPendingEvent (lv_pending v) (set_mInputReader q s2)))
    as (_ & _ & J3 & _ & J5 & _).
  cbn zeta in J3, J5. rewrite J3, J5. cbn. auto.
Qed.

(** ** What the loop stores *)

Lemma same_header_refl (a : sensors_event_t) : same_header a a.
Proof. unfold same_header. tauto. Qed.

Lemma same_header_trans (a b c : sensors_event_t) :
  same_header a b -> same_header b c -> same_header a c.
Proof. unfold same_header. intuition congruence. Qed.

Lemma processEvent_header (code value : Z) (p : sensors_event_t) :
  same_header (processEvent code value p) p /\
  timestamp (processEvent code value p) = timestamp p.
Proof.
  unfold processEvent, same_header. repeat case_match; cbn; tauto.
Qed.

Lemma loop_body_header (enabled : Z) (ev : input_event) (v : loop_vars) :
  same_header (lv_pending (loop_body enabled ev v)) (lv_pending v).
Proof.
  unfold loop_body. repeat case_match; cbn [lv_pending];
    try apply processEvent_header; try apply same_header_refl.
  all: unfold same_header; cbn; tauto.
Qed.

(** One turn stores nothing, or the pending sample stamped with the time
    of the sync event at hand. *)
Lemma loop_body_stores (enabled : Z) (ev : input_event) (v : loop_vars) :
  lv_data (loop_body enabled ev v) = lv_data v \/
  (is_sync ev = true /\
   exists p, lv_data (loop_body enabled ev v) = lv_data v ++ [p] /\
             same_header p (lv_pending v) /\
             timestamp p = timevalToNano (ie_time ev)).
Proof.
  unfold loop_body, is_sync.
  destruct (ie_type ev =? EV_REL); [left; reflexivity|].
  destruct (ie_type ev =? EV_SYN); [|left; reflexivity].
  destruct (enabled =? 0); cbn [negb lv_data]; [left; reflexivity|].
  right. split; [reflexivity|]. eexists. split; [reflexivity|].
  split; [unfold same_header; cbn; tauto | reflexivity].
Qed.

Lemma read_loop_stores (enabled : Z) (q : list input_event) (v : loop_vars) :
  let v' := snd (read_loop enabled q v) in
  same_header (lv_pending v') (lv_pending v) /\
  exists extra,
    lv_data v' = lv_data v ++ extra /\
    Forall (fun e =>
              same_header e (lv_pending v) /\
              exists ev, In ev q /\ is_sync ev = true /\
                         timestamp e = timevalToNano (ie_time ev)) extra.
Proof.
  cbn zeta. revert v. induction q as [|ev q IH]; intros v; cbn [read_loop].
  - split; [apply same_header_refl|]. exists []. rewrite app_nil_r.
    split; [reflexivity | constructor].
  - destruct (lv_count v =? 0); cbn [snd].
    + split; [apply same_header_refl|]. exists []. rewrite app_nil_r.
      split; [reflexivity | constructor].
    + destruct (IH (loop_body enabled ev v)) as (Hh & extra & Hd & Hall).
      pose proof (loop_body_header enabled ev v) as Hb.
      split; [eapply same_header_trans; eassumption|].
      assert (Hall' : Forall (fun e =>
                same_header e (lv_pending v) /\
                exists ev0, In ev0 (ev :: q) /\ is_sync ev0 = true /\
                            timestamp e = timevalToNano (ie_time ev0)) extra).
      { eapply Forall_impl; [exact Hall|]. cbn beta.
        intros e (He & ev0 & Hin & Hs & Ht). split.
        - eapply same_header_trans; eassumption.
        - exists ev0. split; [right; exact Hin | auto]. }
      destruct (loop_body_stores enabled ev v) as [E | (Hs & p & E & Hp & Ht)].
      * exists extra. rewrite Hd, E. split; [reflexivity | exact Hall'].
      * exists (p :: extra). rewrite Hd, E, <- app_assoc.
        split; [reflexivity|]. constructor; [|exact Hall'].
        split; [exact Hp|]. exists ev. split; [left; reflexivity | auto].
Qed.

(** ** How many events the loop stores *)

Lemma sync_count_cons (ev : input_event) (q : list input_event) :
  sync_count (ev :: q) = (if is_sync ev then 1 else 0) + sync_count q.
Proof.
  unfold sync_count. rewrite filter_cons.
  destruct (is_sync ev); case_decide; try discriminate; try congruence;
    cbn [length]; lia.
Qed.

Lemma sync_count_nonneg (q : list input_event) : 0 <= sync_count q.
Proof. unfold sync_count. lia. Qed.

Lemma loop_body_counts (enabled : Z) (ev : input_event) (v : loop_vars) :
  let v' := loop_body enabled ev v in
  let k := if negb (enabled =? 0) && is_sync ev then 1 else 0 in
  lv_count v' = lv_count v - k /\ lv_num v' = lv_num v + k.
Proof.
  cbn zeta. unfold loop_body, is_sync.
  destruct (Z.eqb_spec (ie_type ev) EV_REL) as [E|E].
  - rewrite E. cbn. rewrite andb_false_r. lia.
  - destruct (ie_type ev =? EV_SYN); [destruct (enabled =? 0)|];
      cbn; rewrite ?andb_false_r; lia.
Qed.

Lemma read_loop_counts (enabled : Z) (q : list input_event) (v : loop_vars) :
  0 <= lv_count v ->
  lv_num (snd (read_loop enabled q v)) =
    lv_num v + (if enabled =? 0 then 0 else Z.min (lv_count v) (sync_count q)).
Proof.
  revert v. induction q as [|ev q IH]; intros v Hge; cbn [read_loop].
  - cbn [snd]. change (sync_count []) with 0. destruct (enabled =? 0); lia.
  - pose proof (sync_count_nonneg (ev :: q)) as Hs.
    destruct (Z.eqb_spec (lv_count v) 0) as [E|E]; cbn [snd].
    + destruct (enabled =? 0); lia.
    + destruct (loop_body_counts enabled ev v) as [C1 C2].
      rewrite IH by (rewrite C1; destruct (negb _ && _); lia).
      rewrite C1, C2, sync_count_cons.
      pose proof (sync_count_nonneg q).
      destruct (enabled =? 0); cbn [negb andb]; [lia|].
      destruct (is_sync ev); lia.
Qed.


(** ** What the loop leaves in the reader *)

Lemma read_loop_leftover (enabled : Z) (q : list input_event) (v : loop_vars) :
  (exists consumed, q = consumed ++ fst (read_loop enabled q v)) /\
  (fst (read_loop enabled q v) = [] \/ lv_count (snd (read_loop enabled q v)) = 0).
Proof.
  revert v. induction q as [|ev q IH]; intros v; cbn [read_loop].
  - split; [exists []; reflexivity | left; reflexivity].
  - destruct (Z.eqb_spec (lv_count v) 0) as [E|E]; cbn [fst snd].
    + split; [exists []; reflexivity | right; exact E].
    + destruct (IH (loop_body enabled ev v)) as [[c Hc] Hstop].
      split; [|exact Hstop]. exists (ev :: c). cbn [app]. now rewrite <- Hc.
Qed.

(** ** Frames *)

Lemma setEnable_flags (k : sys) (handle en : Z) (s : state) :
  mFlushEnabled (snd (setEnable k handle en s)) = mFlushEnabled s /\
  (mEnabled (snd (setEnable k handle en s)) = mEnabled s \/
   mEnabled (snd (setEnable k handle en s)) = truth en).
Proof.
  unfold setEnable, open_device, close_device.
  repeat (case_match; cbn); auto.
Qed.

Lemma setDelay_flags (k : sys) (handle ns : Z) (s : state) :
  mFlushEnabled (snd (setDelay k handle ns s)) = mFlushEnabled s /\
  mEnabled (snd (setDelay k handle ns s)) = mEnabled s.
Proof.
  unfold setDelay, open_device, close_device.
  repeat (case_match; cbn); auto.
Qed.

(** A call whose read fails stores at most the marker and touches neither
    the pending sample nor the queue. *)
Lemma readEvents_failed_read (r : read_outcome) (count : Z) (s : state) :
  1 <= count -> fst (fill r s) < 0 ->
  mPendingEvent (snd (readEvents r count s)) = mPendingEvent s /\
  mInputReader (snd (readEvents r count s)) = mInputReader s /\
  snd (fst (readEvents r count s)) =
    (if mFlushEnabled s =? 0 then [] else [mFlushEvent s]).
Proof.
  intros Hc Hn. unfold readEvents.
  assert (E1 : (count <? 1) = false) by (apply Z.ltb_ge; lia).
  assert (E2 : (count =? 0) = false) by (apply Z.eqb_neq; lia).
  rewrite E1, E2. cbn [negb andb].
  set (s1 := if negb (mFlushEnabled s =? 0) then set_mFlushEnabled 0 s else s).
  assert (F : fst (fill r s1) = fst (fill r s) /\
              mInputReader s1 = mInputReader s /\
              mPendingEvent s1 = mPendingEvent s).
  { subst s1. destruct (negb (mFlushEnabled s =? 0)); [|auto].
    destruct (fill_flag_irrelevant r 0 s). auto. }
  destruct F as (F1 & F2 & F3).
  pose proof (fill_frame r s1) as (_ & _ & G3 & _).
  assert (G5 : fst (fill r s1) < 0 ->
               mInputReader (snd (fill r s1)) = mInputReader s1).
  { unfold fill. destruct (reader_capacity - length (mInputReader s1))%nat;
      [|destruct r]; cbn; auto; lia. }
  destruct (fill r s1) as [n s2]. cbn [fst snd] in *.
  assert (E3 : (n <? 0) = true) by (apply Z.ltb_lt; lia). rewrite E3.
  cbn [fst snd]. rewrite G3, G5 by lia.
  destruct (mFlushEnabled s =? 0); auto.
Qed.

Lemma readEvents_pending_header (r : read_outcome) (count : Z) (s : state) :
  same_header (mPendingEvent (snd (readEvents r count s))) (mPendingEvent s).
Proof.
  destruct (Z.lt_ge_cases count 1) as [Hc|Hc].
  - rewrite readEvents_small_count by assumption. apply same_header_refl.
  - destruct (Z.lt_ge_cases (fst (fill r s)) 0) as [Hn|Hn].
    + destruct (readEvents_failed_read r count s Hc Hn) as (-> & _).
      apply same_header_refl.
    + destruct (readEvents_run r count s Hc Hn) as (_ & _ & _ & ->).
      apply read_loop_stores.
Qed.

Lemma readEvents_flags (r : read_outcome) (count : Z) (s : state) :
  mEnabled (snd (readEvents r count s)) = mEnabled s /\
  (mFlushEnabled (snd (readEvents r count s)) = 0 \/
   mFlushEnabled (snd (readEvents r count s)) = mFlushEnabled s).
Proof.
  destruct (Z.lt_ge_cases count 1) as [Hc|Hc].
  - rewrite readEvents_small_count by assumption. auto.
  - destruct (readEvents_shape r count s Hc) as (A & _ & _ & B & _). auto.
Qed.

Lemma reachable_header (s : state) :
  reachable s -> same_header (mPendingEvent s) pending_init.
Proof.
  induction 1 as [datafd k | s s' _ IH Hstep].
  - unfold new, open_device, close_device.
    repeat (case_match; cbn); apply same_header_refl.
  - destruct Hstep as [k handle en s | k handle ns s | handle s | r count s].
    + destruct (setEnable_frame k handle en s) as [_ ->]. exact IH.
    + destruct (setDelay_frame k handle ns s) as [_ ->]. exact IH.
    + exact IH.
    + eapply same_header_trans; [apply readEvents_pending_header | exact IH].
Qed.

(** ** The properties *)

(** X1.  In every state a gyroscope object can reach, [mEnabled] and
    [mFlushEnabled] are 0 or 1. *)
Theorem gyro_flags_stay_boolean (s : state) :
  reachable s ->
  (mEnabled s = 0 \/ mEnabled s = 1) /\
  (mFlushEnabled s = 0 \/ mFlushEnabled s = 1).
Proof.
  induction 1 as [datafd k | s s' _ [IH1 IH2] Hstep].
  - unfold new, open_device, close_device.
    repeat (case_match; cbn); auto.
  - destruct Hstep as [k handle en s | k handle ns s | handle s | r count s].
    + destruct (setEnable_flags k handle en s) as [-> [-> | ->]];
        auto using truth_cases.
    + destruct (setDelay_flags k handle ns s) as [-> ->]. auto.
    + cbn. auto.
    + destruct (readEvents_flags r count s) as [-> [-> | ->]]; auto.
Qed.

(** X2.  The constructor leaves the sensor enabled exactly when the
    GET_ENABLE ioctl worked and answered a non-zero value.  An enabled
    sensor keeps the handle [open] gave; a disabled one holds no handle.
    No flush is pending and the reader is empty. *)
Theorem gyro_new_state (datafd : Z) (k : sys) :
  let s := new datafd k in
  (mEnabled s = 1 <-> ioctl_ret k = 0 /\ ioctl_out k <> 0) /\
  (mEnabled s = 0 \/ mEnabled s = 1) /\
  (mEnabled s = 0 -> dev_fd s < 0) /\
  (mEnabled s = 1 -> dev_fd s = open_ret k) /\
  mFlushEnabled s = 0 /\ mInputReader s = [] /\ data_fd s = datafd.
Proof.
  cbn zeta. unfold new, open_device, close_device. cbn.
  destruct (Z.eqb_spec (ioctl_ret k) 0) as [E1|E1];
    [destruct (Z.eqb_spec (ioctl_out k) 0) as [E2|E2]|]; cbn;
    try (destruct (Z.leb_spec 0 (open_ret k)); cbn);
    repeat split; intros; try lia; try discriminate; try tauto.
Qed.

(** X3.  When the SET_ENABLE ioctl does not fail, [setEnable] answers 0 and
    [getEnable] then reports the state that was asked for. *)
Theorem gyro_setEnable_success (k : sys) (handle en : Z) (s : state) :
  0 <= ioctl_ret k ->
  fst (setEnable k handle en s) = 0 /\
  getEnable handle (snd (setEnable k handle en s)) = truth en.
Proof.
  intros Hret. unfold setEnable, getEnable.
  destruct (Z.eqb_spec (truth en) (mEnabled s)) as [E|E]; [auto|].
  assert (E1 : (ioctl_ret k <? 0) = false) by (apply Z.ltb_ge; lia).
  rewrite E1. cbn [Z.eqb negb fst snd]. split; [reflexivity|].
  destruct (truth en =? 0); rewrite ?close_device_mEnabled; reflexivity.
Qed.

(** X4.  When [setEnable] is asked for a change of state, the device handle
    follows the request, whatever the ioctl answers: after a request to
    disable no handle is held; after a request to enable the handle is the
    one held before or, if there was none, the one [open] gave. *)
Theorem gyro_setEnable_handle_follows_request
    (k : sys) (handle en : Z) (s : state) :
  truth en <> mEnabled s ->
  (en = 0 -> dev_fd (snd (setEnable k handle en s)) < 0) /\
  (en <> 0 ->
     dev_fd (snd (setEnable k handle en s)) =
       if dev_fd s <? 0 then open_ret k else dev_fd s).
Proof.
  intros Hne. apply Z.eqb_neq in Hne. unfold setEnable. rewrite Hne. split.
  - intros ->. cbn [truth Z.eqb negb snd]. unfold close_device.
    destruct (ioctl_ret k <? 0); cbn [Z.eqb negb Z.opp];
      repeat (case_match; cbn [dev_fd set_dev_fd emit set_mEnabled]);
      try lia;
      repeat match goal with
             | E : (0 <=? _) = false |- _ => apply Z.leb_gt in E; cbn in E
             end; lia.
  - intros Hen. unfold truth. apply Z.eqb_neq in Hen. rewrite Hen.
    cbn [Z.eqb negb snd]. unfold open_device.
    destruct (dev_fd s <? 0); repeat (case_match; cbn); reflexivity.
Qed.

(** X5.  On an enabled sensor [setDelay] neither opens nor closes the
    device: it issues the one SET_DELAY ioctl on the handle held, with the
    delay in whole milliseconds (rounded down, so that a delay under 1 ms
    is passed as 0), and answers 0 or [-errno]. *)
Theorem gyro_setDelay_enabled_keeps_handle
    (k : sys) (handle ns : Z) (s : state) :
  0 <= ns < 2147483648000000 -> mEnabled s <> 0 ->
  setDelay k handle ns s =
    (if ioctl_ret k =? 0 then 0 else - errno k,
     emit (SysIoctl (dev_fd s) L3G4200D_IOCTL_SET_DELAY (ns / 1000000)) s).
Proof.
  intros Hns Hen. unfold setDelay.
  assert (E1 : (ns <? 0) = false) by (apply Z.ltb_ge; lia).
  apply Z.eqb_neq in Hen. rewrite E1, Hen. cbn [andb].
  rewrite Z.quot_div_nonneg by lia.
  rewrite to_int_small.
  - cbn [emit mEnabled]. rewrite Hen.
    destruct (ioctl_ret k =? 0); reflexivity.
  - unfold INT_MIN, INT_MAX.
    assert (0 <= ns / 1000000) by (apply Z.div_pos; lia).
    assert (ns / 1000000 < 2147483648)
      by (apply Z.div_lt_upper_bound; lia).
    lia.
Qed.

(** ** Sync events and unknown events in readEvents *)









(** X6.  In every reachable state, each event [readEvents] stores is the
    flush marker or a gyroscope sample: a copy of the pending sample with the
    header the constructor gave it (version, sensor [ID_G], type, status),
    stamped with the time of a sync event that the reader held. *)
Theorem gyro_readEvents_stored_events
    (r : read_outcome) (count : Z) (s : state) :
  reachable s -> 1 <= count ->
  Forall (fun e =>
            e = flush_init \/
            (same_header e pending_init /\
             exists ev, In ev (reader_after_fill r s) /\ is_sync ev = true /\
                        timestamp e = timevalToNano (ie_time ev)))
    (snd (fst (readEvents r count s))).
Proof.
  intros Hreach Hc.
  destruct (reachable_inv s Hreach) as [Hflush _].
  pose proof (reachable_header s Hreach) as Hhead.
  destruct (Z.lt_ge_cases (fst (fill r s)) 0) as [Hn|Hn].
  - destruct (readEvents_failed_read r count s Hc Hn) as (_ & _ & ->).
    rewrite Hflush. destruct (mFlushEnabled s =? 0); repeat constructor.
  - destruct (readEvents_run r count s Hc Hn) as (_ & -> & _ & _).
    match goal with
    | |- context [read_loop ?en ?q ?v0] =>
        destruct (read_loop_stores en q v0) as (_ & extra & -> & Hall)
    end.
    cbn [lv_data lv_pending] in *. apply Forall_app. split.
    + rewrite Hflush. destruct (mFlushEnabled s =? 0); repeat constructor.
    + eapply Forall_impl; [exact Hall|]. cbn beta.
      intros e (He & Hev). right. split; [|exact Hev].
      eapply same_header_trans; eassumption.
Qed.

(** X7.  When the read does not fail, an enabled sensor returns the marker
    (if one was pending) plus one sample per sync event in the reader, as
    many as fit into the room left; a disabled sensor returns the marker
    alone, whatever the reader holds. *)
Theorem gyro_readEvents_count (r : read_outcome) (count : Z) (s : state) :
  1 <= count -> 0 <= fst (fill r s) ->
  fst (fst (readEvents r count s)) =
    marker_room s +
    (if mEnabled s =? 0 then 0
     else Z.min (count - marker_room s) (sync_count (reader_after_fill r s))).
Proof.
  intros Hc Hn.
  destruct (readEvents_run r count s Hc Hn) as (-> & _).
  rewrite read_loop_counts; [reflexivity|].
  cbn [lv_count]. unfold marker_room. destruct (mFlushEnabled s =? 0); lia.
Qed.

(** X8.  When the read does not fail, [readEvents] consumes the reader from
    the front and in order: what it leaves is a tail of what the reader held,
    and it leaves something only when the caller's array is full. *)
Theorem gyro_readEvents_leftover (r : read_outcome) (count : Z) (s : state) :
  1 <= count -> 0 <= fst (fill r s) ->
  (exists consumed,
     reader_after_fill r s =
       consumed ++ mInputReader (snd (readEvents r count s))) /\
  (mInputReader (snd (readEvents r count s)) = [] \/
   fst (fst (readEvents r count s)) = count).
Proof.
  intros Hc Hn.
  destruct (readEvents_run r count s Hc Hn) as (-> & _ & -> & _).
  match goal with
  | |- context [read_loop ?en ?q ?v0] =>
      destruct (read_loop_leftover en q v0) as [Hcons Hstop];
      assert (Hv0 : 0 <= lv_count v0)
        by (cbn; unfold marker_room; destruct (mFlushEnabled s =? 0); lia);
      destruct (read_loop_inv en q v0 Hv0) as (_ & Hsum & _)
  end.
  cbn [lv_count lv_num] in Hsum. split; [exact Hcons|].
  destruct Hstop as [E|E]; [left; exact E | right; lia].
Qed.

(** X9.  Only [setEnable] changes what [getEnable] reports: [flush],
    [setDelay] and [readEvents] leave it as it is. *)
Theorem gyro_enable_state_only_by_setEnable
    (k : sys) (r : read_outcome) (handle ns count : Z) (s : state) :
  getEnable handle (snd (flush handle s)) = getEnable handle s /\
  getEnable handle (snd (setDelay k handle ns s)) = getEnable handle s /\
  getEnable handle (snd (readEvents r count s)) = getEnable handle s.
Proof.
  unfold getEnable. split; [reflexivity|]. split.
  - apply setDelay_flags.
  - apply readEvents_flags.
Qed.


End GyroSensorMore.

(** * More of IioSensor *)

Section IioSensorMore.
Import IioSensor.
Context `{HalHeaders}.

(** ** Discovery *)

Lemma count_output_from (chans : list iio_channel) (acc : Z) :
  fold_left (fun out_chan ch => if chan_is_output ch then out_chan + 1 else out_chan)
    chans acc + Z.of_nat (length (filter (fun ch => chan_is_output ch = false) chans))
  = acc + Z.of_nat (length chans).
Proof.
  revert acc. induction chans as [|ch chans IH]; intros acc; cbn [fold_left length].
  - cbn. lia.
  - rewrite filter_cons.
    destruct (chan_is_output ch); case_decide;
      try discriminate; try congruence; cbn [length].
    + specialize (IH (acc + 1)). lia.
    + specialize (IH acc). lia.
Qed.

(** X11.  A device is usable exactly when it is not a trigger, has a
    [greybus_type] attribute, and at least three of its channels are not
    output channels. *)
Theorem iio_isUsable_iff (d : iio_device_info) :
  isUsable d = true <->
  di_is_trigger d = false /\ di_has_greybus_type d = true /\
  (3 <= length (filter (fun ch => chan_is_output ch = false)
                  (dev_channels (di_device d))))%nat.
Proof.
  unfold isUsable, count_output.
  pose proof (count_output_from (dev_channels (di_device d)) 0) as Hc.
  destruct (di_is_trigger d); [intuition discriminate|].
  destruct (di_has_greybus_type d); cbn [negb]; [|intuition discriminate].
  rewrite Z.leb_le. split.
  - intros Hle. repeat split. lia.
  - intros (_ & _ & Hle). lia.
Qed.

Lemma add_sensors_spec (FIRST_HANDLE : Z) (devs : list iio_device_info) :
  forall (i : nat) (acc : list state),
  INT_MIN <= FIRST_HANDLE + Z.of_nat i ->
  FIRST_HANDLE + Z.of_nat i + Z.of_nat (length devs) <= INT_MAX + 1 ->
  exists added,
    add_sensors FIRST_HANDLE i devs acc = acc ++ added /\
    (forall s, In s added <->
       exists j d, devs !! j = Some d /\ isUsable d = true /\
                   s = new (di_device d) (FIRST_HANDLE + Z.of_nat (i + j))
                         (di_greybus_type d) (di_flags d)) /\
    NoDup (map sensor_handle added) /\
    Forall (fun s => FIRST_HANDLE + Z.of_nat i <= sensor_handle s) added.
Proof.
  induction devs as [|d devs IH]; intros i acc Hlo Hhi; cbn [add_sensors].
  - exists []. rewrite app_nil_r. split; [reflexivity|]. split; [|split].
    + intros s. split; [intros []|]. intros (j & d & Hj & _). discriminate Hj.
    + constructor.
    + constructor.
  - cbn [length] in Hhi.
    destruct (IH (S i) (if isUsable d then acc ++ [sensor_of FIRST_HANDLE i d] else acc)
                ltac:(lia) ltac:(lia)) as (added & E & Hin & Hnd & Hge).
    assert (Hsens : sensor_of FIRST_HANDLE i d =
                    new (di_device d) (FIRST_HANDLE + Z.of_nat (i + 0))
                      (di_greybus_type d) (di_flags d)).
    { unfold sensor_of. rewrite Nat.add_0_r, to_int_small by lia. reflexivity. }
    assert (Hshift : forall s,
              In s added <->
              exists j d0, (d :: devs) !! S j = Some d0 /\ isUsable d0 = true /\
                s = new (di_device d0) (FIRST_HANDLE + Z.of_nat (i + S j))
                      (di_greybus_type d0) (di_flags d0)).
    { intros s. rewrite Hin. split; intros (j & d0 & Hj & Hu & ->);
        exists j, d0; (split; [exact Hj|]); (split; [exact Hu|]);
        do 2 f_equal; lia. }
    destruct (isUsable d) eqn:Hu.
    + exists (sensor_of FIRST_HANDLE i d :: added).
      rewrite E, <- app_assoc. split; [reflexivity|]. split; [|split].
      * intros s. cbn [In]. rewrite Hshift. split.
        -- intros [<- | (j & d0 & Hj & Hu0 & ->)].
           ++ exists 0%nat, d. auto.
           ++ exists (S j), d0. auto.
        -- intros ([|j] & d0 & Hj & Hu0 & ->).
           ++ left. cbn in Hj. injection Hj as <-. exact Hsens.
           ++ right. exists j, d0. auto.
      * cbn [map]. apply NoDup_cons. split; [|exact Hnd].
        rewrite list_elem_of_In, in_map_iff. intros (s & Hs & Hins).
        rewrite Forall_forall in Hge. apply list_elem_of_In, Hge in Hins.
        rewrite Hsens in Hs. cbn in Hs. lia.
      * constructor.
        -- rewrite Hsens. cbn. lia.
        -- eapply Forall_impl; [exact Hge|]. cbn beta. intros; lia.
    + exists added. split; [exact E|]. split; [|split].
      * intros s. rewrite Hshift. split.
        -- intros (j & d0 & Hj & Hu0 & ->). exists (S j), d0. auto.
        -- intros ([|j] & d0 & Hj & Hu0 & ->).
           ++ cbn in Hj. injection Hj as <-. congruence.
           ++ exists j, d0. auto.
      * exact Hnd.
      * eapply Forall_impl; [exact Hge|]. cbn beta. intros; lia.
Qed.

(** X12.  With a context, [updateSensorList] forgets the old list and holds
    one fresh sensor for every usable device, the sensor of device number
    [i] having handle [FIRST_HANDLE + i]; no two sensors of the list share a
    handle.  Without a context the list stays as it was. *)
Theorem iio_updateSensorList_sensors
    (FIRST_HANDLE : Z) (devs : list iio_device_info) (old : list state) :
  INT_MIN <= FIRST_HANDLE ->
  FIRST_HANDLE + Z.of_nat (length devs) <= INT_MAX + 1 ->
  (forall s,
     In s (updateSensorList FIRST_HANDLE (Some devs) old) <->
     exists i d, devs !! i = Some d /\ isUsable d = true /\
                 s = new (di_device d) (FIRST_HANDLE + Z.of_nat i)
                       (di_greybus_type d) (di_flags d)) /\
  NoDup (map sensor_handle (updateSensorList FIRST_HANDLE (Some devs) old)) /\
  updateSensorList FIRST_HANDLE None old = old.
Proof.
  intros Hlo Hhi. unfold updateSensorList.
  destruct (add_sensors_spec FIRST_HANDLE devs 0 [] ltac:(lia) ltac:(lia))
    as (added & -> & Hin & Hnd & _).
  cbn [app]. auto.
Qed.

(** ** The context *)

Lemma createIioContext_calls_created (answers : list (option Z)) :
  createIioContext_calls answers true = map (fun _ => None) answers.
Proof.
  induction answers as [|a rest IH]; cbn; [reflexivity|]. now rewrite IH.
Qed.

(** X13.  In one process only the first [createIioContext] can return a
    context: every later call returns null and calls nothing in libiio,
    also when the first call got no context.  The timeout is set on a
    context that exists, never on null. *)
Theorem iio_createIioContext_once (a : option Z) (rest : list (option Z)) :
  createIioContext_calls (a :: rest) false = a :: map (fun _ => None) rest /\
  (forall b, createIioContext b true = (None, true, [])) /\
  snd (fst (createIioContext a false)) = true /\
  (forall c ms, In (ContextSetTimeout c ms) (snd (createIioContext a false)) ->
                a = Some c /\ ms = 10000).
Proof.
  split; [|split; [|split]].
  - cbn. now rewrite createIioContext_calls_created.
  - reflexivity.
  - reflexivity.
  - intros c ms. unfold createIioContext. cbn [snd].
    destruct a as [c0|]; cbn [In].
    + intros [Hx | [Hx | []]]; [discriminate Hx|].
      injection Hx as -> <-. auto.
    + intros [Hx | []]. discriminate Hx.
Qed.

(** ** String attributes *)

(** X14.  [readIioStr] returns the string read from the device when the
    length attribute reads as a positive number, the buffer is allocated and
    the result of the string read, taken as an [int], is positive; in every
    other case it returns the default.  On every path exactly one heap
    buffer is live on return, the one that holds the result: a buffer
    allocated for a read that fails is freed. *)
Theorem iio_readIioStr_result (a : attr_reads) (defaultVal : string) :
  live_buffers (snd (readIioStr a defaultVal)) = 1 /\
  (len_ret a = 0 /\ 0 < len_val a /\ malloc_ok a = true /\
   0 < to_int (str_ret a) ->
     readIioStr a defaultVal = (str_val a, [Malloc (len_val a + 1)])) /\
  (len_ret a <> 0 \/ len_val a <= 0 \/ malloc_ok a = false \/
   to_int (str_ret a) <= 0 ->
     fst (readIioStr a defaultVal) = defaultVal).
Proof.
  unfold readIioStr.
  destruct (Z.eqb_spec (len_ret a) 0) as [E1|E1];
    [destruct (Z.leb_spec (len_val a) 0) as [E2|E2];
      [|destruct (malloc_ok a) eqn:E3;
         [destruct (Z.ltb_spec 0 (to_int (str_ret a))) as [E4|E4]|]]|];
    cbn; repeat split; try reflexivity;
    try (intros (? & ? & ? & ?); first [lia | discriminate | congruence]);
    try (intros [?|[?|[?|?]]]; first [lia | discriminate | congruence]).
Qed.

(** ** Channel offsets *)

Lemma fold_offsets_spec (l : list iio_channel) :
  forall m : gmap Z Z,
  NoDup (map chan_index
           (filter (fun ch => (0 <=? chan_index ch) && chan_is_scan_element ch = true) l)) ->
  let m' := fold_left
              (fun m (chan : iio_channel) =>
                 let idx := chan_index chan in
                 if (0 <=? idx) && chan_is_scan_element chan
                 then <[idx := chan_first chan]> m else m) l m in
  (forall ch, In ch l -> 0 <= chan_index ch -> chan_is_scan_element ch = true ->
              m' !! chan_index ch = Some (chan_first ch)) /\
  (forall idx,
     (forall ch, In ch l -> 0 <= chan_index ch -> chan_is_scan_element ch = true ->
                 chan_index ch <> idx) ->
     m' !! idx = m !! idx).
Proof.
  induction l as [|c l IH]; intros m Hnd; cbn zeta; cbn [fold_left].
  - split; [intros ch []|reflexivity].
  - rewrite filter_cons in Hnd.
    set (m1 := if (0 <=? chan_index c) && chan_is_scan_element c
               then <[chan_index c := chan_first c]> m else m).
    assert (Hnd' : NoDup (map chan_index
              (filter (fun ch => (0 <=? chan_index ch) && chan_is_scan_element ch = true) l)))
      by (case_decide; [cbn [map] in Hnd; apply NoDup_cons in Hnd; tauto | exact Hnd]).
    destruct (IH m1 Hnd') as [IH1 IH2]. cbn zeta in IH1, IH2. split.
    + intros ch [<- | Hin] Hidx Hscan; [|now apply IH1].
      rewrite IH2.
      * subst m1. apply Z.leb_le in Hidx. rewrite Hidx, Hscan. cbn [andb].
        apply lookup_insert_eq.
      * intros ch' Hin' Hidx' Hscan' Heq.
        case_decide as Hq.
        -- cbn [map] in Hnd. apply NoDup_cons in Hnd as [Hnotin _].
           apply Hnotin. rewrite <- Heq. apply list_elem_of_In, in_map.
           apply list_elem_of_In, list_elem_of_filter. split.
           ++ apply Z.leb_le in Hidx'. now rewrite Hidx', Hscan'.
           ++ now apply list_elem_of_In.
        -- apply Hq. apply Z.leb_le in Hidx. now rewrite Hidx, Hscan.
    + intros idx Hno. rewrite IH2.
      * subst m1. destruct (Z.leb_spec 0 (chan_index c)) as [Hidx|Hidx];
          [destruct (chan_is_scan_element c) eqn:Hscan|]; cbn [andb];
          try reflexivity.
        apply lookup_insert_ne. apply (Hno c); auto. now left.
      * intros ch Hin. apply Hno. now right.
Qed.

(** X15.  When the scan channels of the device have distinct indices,
    [computeChannelOffsets] records for each of them (index not negative,
    scan element) its place in the sample record under its index, and
    leaves every other index of the table as it was. *)
Theorem iio_computeChannelOffsets_lookup (s : state) :
  NoDup (map chan_index
           (filter (fun ch => (0 <=? chan_index ch) && chan_is_scan_element ch = true)
              (dev_channels (iio_dev s)))) ->
  (forall ch, In ch (dev_channels (iio_dev s)) ->
              0 <= chan_index ch -> chan_is_scan_element ch = true ->
              channel_offset (computeChannelOffsets s) !! chan_index ch
                = Some (chan_first ch)) /\
  (forall idx,
     (forall ch, In ch (dev_channels (iio_dev s)) ->
                 0 <= chan_index ch -> chan_is_scan_element ch = true ->
                 chan_index ch <> idx) ->
     channel_offset (computeChannelOffsets s) !! idx = channel_offset s !! idx).
Proof.
  intros Hnd. unfold computeChannelOffsets. cbn [channel_offset set_channel_offset].
  exact (fold_offsets_spec (dev_channels (iio_dev s)) (channel_offset s) Hnd).
Qed.

(** ** Decoding a record *)

Lemma convert_channel_header (s : state) (start : Z) (d : sensors_event_t)
    (cc : nat * iio_channel) :
  version (convert_channel s start d cc) = version d /\
  sensor (convert_channel s start d cc) = sensor d /\
  type (convert_channel s start d cc) = type d /\
  flags (convert_channel s start d cc) = flags d.
Proof.
  unfold convert_channel. destruct cc as [c chan].
  repeat case_match; cbn; auto.
Qed.

Lemma decode_header (s : state) (start : Z) :
  version (decode s start) = sizeof_sensors_event_t /\
  sensor (decode s start) = sensor_handle s /\
  type (decode s start) = sensor_type s /\
  flags (decode s start) = 0.
Proof.
  unfold decode.
  generalize (firstn (Z.to_nat (Z.min (Z.of_nat (length (dev_channels (iio_dev s))))
                                  MAX_CHANNELS))
                (numbered (dev_channels (iio_dev s)))) as l.
  set (d0 := {| version := sizeof_sensors_event_t; sensor := sensor_handle s;
                type := sensor_type s; timestamp := None; data := ∅; flags := 0 |}).
  assert (H0 : version d0 = sizeof_sensors_event_t /\ sensor d0 = sensor_handle s /\
               type d0 = sensor_type s /\ flags d0 = 0) by (cbn; auto).
  revert H0. generalize d0 as d. intros d Hd l. revert d Hd.
  induction l as [|cc l IH]; intros d Hd; cbn [fold_left]; [exact Hd|].
  apply IH. destruct (convert_channel_header s start d cc) as (-> & -> & -> & ->).
  exact Hd.
Qed.

Lemma convert_channel_shift (s : state) (start d : Z) (e1 e2 : sensors_event_t)
    (cc : nat * iio_channel) :
  timestamp e2 = shift_read d <$> timestamp e1 ->
  data e2 = shift_read d <$> data e1 ->
  timestamp (convert_channel s (start + d) e2 cc)
    = shift_read d <$> timestamp (convert_channel s start e1 cc) /\
  data (convert_channel s (start + d) e2 cc)
    = shift_read d <$> data (convert_channel s start e1 cc).
Proof.
  intros Ht Hd. unfold convert_channel. destruct cc as [c chan].
  destruct (chan_id chan) as [id|]; [|auto].
  destruct (0 <=? chan_index chan); [|auto].
  destruct (String.eqb id "timestamp"); cbn [timestamp data set_timestamp set_data].
  - split; [|exact Hd]. cbn. unfold shift_read. cbn. do 2 f_equal. lia.
  - split; [exact Ht|]. rewrite fmap_insert, Hd. f_equal.
    unfold shift_read. cbn. f_equal. lia.
Qed.

(** X16.  Decoding is the same at every place of the buffer: the event
    converted from [start + d] reads, channel by channel and for the
    timestamp, [d] bytes further than the event converted from [start]. *)
Theorem iio_decode_shift (s : state) (start d : Z) :
  timestamp (decode s (start + d)) = shift_read d <$> timestamp (decode s start) /\
  data (decode s (start + d)) = shift_read d <$> data (decode s start).
Proof.
  unfold decode.
  generalize (firstn (Z.to_nat (Z.min (Z.of_nat (length (dev_channels (iio_dev s))))
                                  MAX_CHANNELS))
                (numbered (dev_channels (iio_dev s)))) as l.
  set (d0 := {| version := sizeof_sensors_event_t; sensor := sensor_handle s;
                type := sensor_type s; timestamp := None; data := ∅; flags := 0 |}).
  assert (H0 : timestamp d0 = shift_read d <$> timestamp d0 /\
               data d0 = shift_read d <$> data d0)
    by (cbn; split; [reflexivity | now rewrite fmap_empty]).
  revert H0. generalize d0 at 1 3 5 7 as e2. generalize d0 as e1.
  intros e1 e2 [Ht Hd] l. revert e1 e2 Ht Hd.
  induction l as [|cc l IH]; intros e1 e2 Ht Hd; cbn [fold_left]; [auto|].
  destruct (convert_channel_shift s start d e1 e2 cc Ht Hd) as [Ht' Hd'].
  apply IH; assumption.
Qed.

(** ** readEvents *)

Lemma with_offsets_identity (s : state) :
  sensor_handle (with_offsets s) = sensor_handle s /\
  sensor_type (with_offsets s) = sensor_type s.
Proof. unfold with_offsets. case_decide; cbn; auto. Qed.

(** X17.  Whatever branch [readEvents] takes, every event it stores carries
    the size of [sensors_event_t] as version, the sensor's handle, the
    sensor's type, and flags 0. *)
Theorem iio_readEvents_event_identity (refill_ret count : Z) (s : state) :
  Forall (fun e => version e = sizeof_sensors_event_t /\
                   sensor e = sensor_handle s /\
                   type e = sensor_type s /\ flags e = 0)
    (snd (fst (readEvents refill_ret count s))).
Proof.
  destruct (with_offsets_identity s) as [Hh Ht].
  destruct (Z.eq_dec (remaining_samples s) 0) as [Hrem|Hrem].
  - destruct (Z.lt_ge_cases refill_ret 0) as [Hret|Hret].
    + rewrite readEvents_refill_error by assumption. constructor.
    + rewrite readEvents_refill_ok by assumption. cbn [fst snd].
      apply Forall_forall. intros e He.
      apply list_elem_of_In, in_map_iff in He as (i & <- & _).
      match goal with
      | |- context [decode ?s1 ?a] => destruct (decode_header s1 a) as (-> & -> & -> & ->)
      end.
      cbn. rewrite Hh, Ht. auto.
  - rewrite readEvents_carry_over by assumption. cbn [fst snd].
    apply Forall_forall. intros e He.
    apply list_elem_of_In, in_map_iff in He as (i & <- & _).
    match goal with
    | |- context [decode ?s1 ?a] => destruct (decode_header s1 a) as (-> & -> & -> & ->)
    end.
    rewrite Hh, Ht. auto.
Qed.

(** X18.  [readEvents] asks libiio for a refill exactly when no sample is
    left over, and then once: with samples left the trace is unchanged, with
    none it gains the refill and, if the refill failed, the error line. *)
Theorem iio_readEvents_refills_iff_empty (refill_ret count : Z) (s : state) :
  (remaining_samples s <> 0 ->
     trace (snd (readEvents refill_ret count s)) = trace s) /\
  (remaining_samples s = 0 ->
     trace (snd (readEvents refill_ret count s)) =
       trace s ++ BufferRefill (iio_buf s) ::
         (if refill_ret <? 0 then [LogE_refill (- refill_ret)] else [])).
Proof.
  destruct (with_offsets_frame s) as (_ & _ & _ & Ft). split; intros Hrem.
  - rewrite readEvents_carry_over by assumption. cbn. exact Ft.
  - destruct (Z.ltb_spec refill_ret 0) as [Hret|Hret].
    + rewrite readEvents_refill_error by assumption. cbn.
      rewrite Ft, <- app_assoc. reflexivity.
    + rewrite readEvents_refill_ok by assumption. cbn. now rewrite Ft.
Qed.

(** X19.  After a refill that answered [refill_ret] bytes, with a positive
    sample size, the call converts the records at 0, [sample_size], ... in
    order, all of them inside the bytes fetched, and what it does not return
    it counts as left over: returned plus left over is
    [refill_ret / sample_size]. *)
Theorem iio_readEvents_refill_in_bounds (refill_ret count : Z) (s : state) :
  remaining_samples s = 0 -> 0 <= refill_ret <= INT_MAX ->
  0 < dev_sample_size (iio_dev s) ->
  let res := readEvents refill_ret count s in
  let sample_size := dev_sample_size (iio_dev s) in
  0 <= fst (fst res) /\
  fst (fst res) * sample_size <= refill_ret /\
  0 <= remaining_samples (snd res) /\
  fst (fst res) + remaining_samples (snd res) = refill_ret / sample_size /\
  snd (fst res) =
    map (fun i => decode (with_offsets s) (Z.of_nat i * sample_size))
      (seq 0 (Z.to_nat (fst (fst res)))).
Proof.
  intros Hrem Hret Hss. cbn zeta.
  rewrite readEvents_refill_ok by (assumption || lia). cbn [fst snd].
  cbn [remaining_samples set_remaining_samples].
  rewrite Z.quot_div_nonneg by lia.
  assert (Hq : 0 <= refill_ret / dev_sample_size (iio_dev s) <= refill_ret).
  { split; [apply Z.div_pos; lia|]. apply Z.div_le_upper_bound; nia. }
  rewrite to_int_small by (unfold INT_MIN, INT_MAX in *; lia).
  pose proof (Z.mul_div_le refill_ret (dev_sample_size (iio_dev s)) Hss).
  repeat split; try lia; try nia.
Qed.

(** ** setEnable *)

Lemma emits_frame_device (es : list effect) (s : state) :
  sensor_handle (emits es s) = sensor_handle s /\
  iio_dev (emits es s) = iio_dev s.
Proof.
  unfold emits. revert s. induction es as [|e es IH]; intros s; cbn; [auto|].
  destruct (IH (emit e s)) as [-> ->]. auto.
Qed.

(** X20.  On its own handle, a sensor without a buffer that is enabled and
    then disabled is back without a buffer: the enable creates the buffer
    libiio hands out and makes it non-blocking, [getFd] then is the buffer's
    descriptor; the disable destroys that same buffer and [getFd] is -1.
    Both calls answer 0, and each switches the same channels. *)
Theorem iio_enable_disable_round_trip
    (b errno enabled poll_fd : Z) (created' : option Z) (errno' handle : Z)
    (s : state) :
  hasSensor handle s = true -> iio_buf s = None -> enabled <> 0 ->
  let r1 := setEnable (Some b) errno handle enabled s in
  let r2 := setEnable created' errno' handle 0 (snd r1) in
  fst r1 = 0 /\ iio_buf (snd r1) = Some b /\ getFd poll_fd (snd r1) = poll_fd /\
  fst r2 = 0 /\ iio_buf (snd r2) = None /\ getFd poll_fd (snd r2) = -1 /\
  trace (snd r2) =
    trace s ++ map ChannelEnable (input_scan_channels s)
      ++ [CreateBuffer BUFFER_LEN false; SetBlockingMode b false]
      ++ map ChannelDisable (input_scan_channels s) ++ [DestroyBuffer b].
Proof.
  intros Hh Hbuf Hen. cbn zeta.
  assert (E1 : setEnable (Some b) errno handle enabled s =
               (0, emit (SetBlockingMode b false)
                     (set_iio_buf (Some b)
                        (emit (CreateBuffer BUFFER_LEN false)
                           (emits (map ChannelEnable (input_scan_channels s)) s))))).
  { unfold setEnable. rewrite Hh. apply Z.eqb_neq in Hen. rewrite Hen. cbn [negb].
    destruct (emits_frame_iio (map ChannelEnable (input_scan_channels s)) s)
      as (_ & -> & _).
    rewrite Hbuf. reflexivity. }
  rewrite E1. cbn [fst snd].
  set (s1 := emit _ _).
  destruct (emits_frame_iio (map ChannelEnable (input_scan_channels s)) s)
    as (_ & _ & T1).
  destruct (emits_frame_device (map ChannelEnable (input_scan_channels s)) s)
    as (D1 & D2).
  assert (Hh1 : hasSensor handle s1 = true)
    by (unfold hasSensor in *; subst s1; cbn; now rewrite D1).
  assert (Hch : input_scan_channels s1 = input_scan_channels s)
    by (unfold input_scan_channels; subst s1; cbn; now rewrite D2).
  unfold setEnable at 1 2 3 4. rewrite Hh1, Hch. cbn [Z.eqb negb].
  destruct (emits_frame_iio (map ChannelDisable (input_scan_channels s)) s1)
    as (_ & B2 & T2).
  rewrite B2. subst s1. cbn [emit set_iio_buf iio_buf fst snd getFd trace].
  rewrite T2. cbn [emit set_iio_buf trace]. rewrite T1.
  repeat split; try reflexivity.
  rewrite <- !app_assoc. reflexivity.
Qed.

(** X21.  Two enables in a row create one buffer: on an enabled sensor
    [setEnable] only switches the channels on again and answers 0.  And an
    enable whose buffer libiio refuses answers [-errno] and leaves the
    sensor without a buffer, so that the next enable asks for one again. *)
Theorem iio_enable_twice_and_retry
    (b errno enabled : Z) (created' : option Z) (errno' handle : Z) (s : state) :
  hasSensor handle s = true -> iio_buf s = None -> enabled <> 0 ->
  let on := snd (setEnable (Some b) errno handle enabled s) in
  let failed := setEnable None errno handle enabled s in
  setEnable created' errno' handle enabled on =
    (0, emits (map ChannelEnable (input_scan_channels s)) on) /\
  fst failed = - errno /\ iio_buf (snd failed) = None /\
  iio_buf (snd (setEnable (Some b) errno' handle enabled (snd failed))) = Some b.
Proof.
  intros Hh Hbuf Hen. cbn zeta.
  destruct (emits_frame_iio (map ChannelEnable (input_scan_channels s)) s)
    as (_ & B1 & _).
  destruct (emits_frame_device (map ChannelEnable (input_scan_channels s)) s)
    as (D1 & D2).
  pose proof Hen as Hen'. apply Z.eqb_neq in Hen'.
  assert (E1 : setEnable (Some b) errno handle enabled s =
               (0, emit (SetBlockingMode b false)
                     (set_iio_buf (Some b)
                        (emit (CreateBuffer BUFFER_LEN false)
                           (emits (map ChannelEnable (input_scan_channels s)) s))))).
  { unfold setEnable. rewrite Hh, Hen'. cbn [negb]. rewrite B1, Hbuf. reflexivity. }
  assert (E2 : setEnable None errno handle enabled s =
               (- errno, emit (LogE_create errno)
                           (emit (CreateBuffer BUFFER_LEN false)
                              (emits (map ChannelEnable (input_scan_channels s)) s)))).
  { unfold setEnable. rewrite Hh, Hen'. cbn [negb]. rewrite B1, Hbuf. reflexivity. }
  rewrite E1, E2. cbn [fst snd]. split; [|split; [reflexivity|split]].
  - set (s1 := emit _ _).
    assert (Hh1 : hasSensor handle s1 = true)
      by (unfold hasSensor in *; subst s1; cbn; now rewrite D1).
    assert (Hch : input_scan_channels s1 = input_scan_channels s)
      by (unfold input_scan_channels; subst s1; cbn; now rewrite D2).
    unfold setEnable. rewrite Hh1, Hen', Hch. cbn [negb].
    destruct (emits_frame_iio (map ChannelEnable (input_scan_channels s)) s1)
      as (_ & -> & _).
    subst s1. reflexivity.
  - cbn. exact B1 || (rewrite B1; exact Hbuf).
  - set (s1 := emit _ _).
    assert (Hh1 : hasSensor handle s1 = true)
      by (unfold hasSensor in *; subst s1; cbn; now rewrite D1).
    assert (Hb1 : iio_buf s1 = None) by (subst s1; cbn; now rewrite B1).
    apply (setEnable_creates_buffer b errno' handle enabled s1 Hh1 Hen Hb1).
Qed.

(** X22.  [setEnable], [batch] and [flush] act on the sensor's own handle
    only: with any other handle each answers [-EINVAL], calls nothing in
    libiio and leaves the object as it was. *)
Theorem iio_foreign_handle_rejected
    (created : option Z) (errno enabled latency_ret freq_ret flags period latency
     write_ret handle : Z) (s : state) :
  handle <> sensor_handle s ->
  setEnable created errno handle enabled s = (- EINVAL, s) /\
  batch latency_ret freq_ret handle flags period latency s = (- EINVAL, s) /\
  flush write_ret handle s = (- EINVAL, s).
Proof.
  intros Hne. assert (Hh : hasSensor handle s = false)
    by (unfold hasSensor; apply Z.eqb_neq; congruence).
  unfold setEnable, batch, flush. rewrite Hh. auto.
Qed.

(** The channels of the device that are scan elements and not outputs,
    by their number. *)
Lemma input_scan_channels_spec (s : state) (c : nat) :
  In c (input_scan_channels s) <->
  exists ch, dev_channels (iio_dev s) !! c = Some ch /\
             chan_is_output ch = false /\ chan_is_scan_element ch = true.
Proof.
  unfold input_scan_channels, numbered. rewrite in_map_iff. split.
  - intros ([c' ch] & <- & Hin).
    apply list_elem_of_In, list_elem_of_filter in Hin as [HP Hin].
    apply elem_of_lookup_imap in Hin as (i & y & [= -> ->] & Hl).
    cbn in HP. apply andb_true_iff in HP as [Ho Hs].
    apply negb_true_iff in Ho. exists y. auto.
  - intros (ch & Hl & Ho & Hs). exists (c, ch). split; [reflexivity|].
    apply list_elem_of_In, list_elem_of_filter. split.
    + cbn. now rewrite Ho, Hs.
    + apply elem_of_lookup_imap. exists c, ch. auto.
Qed.

Lemma in_switched (K K' : nat -> effect) (c : nat) (cs : list nat)
    (tail : list effect) :
  (forall a b, K a = K b -> a = b) ->
  (forall a, ~ In (K a) tail) ->
  (forall a b, K a <> K' b) ->
  (In (K c) (map K cs ++ tail) <-> In c cs) /\
  ~ In (K' c) (map K cs).
Proof.
  intros Hinj Htail Hother. split.
  - rewrite in_app_iff, in_map_iff. split.
    + intros [(a & Ha & Hin) | Hin]; [|destruct (Htail c Hin)].
      apply Hinj in Ha. now subst.
    + intros Hin. left. exists c. auto.
  - rewrite in_map_iff. intros (a & Ha & _). exact (Hother a c Ha).
Qed.

(** X23.  On its own handle, [setEnable] adds to the trace a
    [ChannelEnable c] exactly when it is asked to enable and channel [c] of
    the device is a scan element and not an output, and a
    [ChannelDisable c] exactly when it is asked to disable and [c] is such a
    channel; this for every answer of libiio and with or without a
    buffer. *)
Theorem iio_setEnable_switches_input_scan_channels
    (created : option Z) (errno handle enabled : Z) (s : state) :
  hasSensor handle s = true ->
  exists added,
    trace (snd (setEnable created errno handle enabled s)) = trace s ++ added /\
    forall c,
      (In (ChannelEnable c) added <->
         enabled <> 0 /\
         exists ch, dev_channels (iio_dev s) !! c = Some ch /\
                    chan_is_output ch = false /\ chan_is_scan_element ch = true) /\
      (In (ChannelDisable c) added <->
         enabled = 0 /\
         exists ch, dev_channels (iio_dev s) !! c = Some ch /\
                    chan_is_output ch = false /\ chan_is_scan_element ch = true).
Proof.
  intros Hh. unfold setEnable. rewrite Hh. cbn [negb].
  assert (InjE : forall a b, ChannelEnable a = ChannelEnable b -> a = b)
    by (intros a b E; congruence).
  assert (InjD : forall a b, ChannelDisable a = ChannelDisable b -> a = b)
    by (intros a b E; congruence).
  assert (ED : forall a b, ChannelEnable a <> ChannelDisable b) by discriminate.
  assert (DE : forall a b, ChannelDisable a <> ChannelEnable b) by discriminate.
  destruct (Z.eqb_spec enabled 0) as [Hen|Hen]; cbn [negb].
  - destruct (emits_frame_iio (map ChannelDisable (input_scan_channels s)) s)
      as (_ & B & T).
    set (tail := match iio_buf s with Some b => [DestroyBuffer b] | None => [] end).
    exists (map ChannelDisable (input_scan_channels s) ++ tail). split.
    + rewrite B. subst tail. destruct (iio_buf s); cbn [snd trace emit set_iio_buf];
        rewrite T, <- ?app_assoc, ?app_nil_r; reflexivity.
    + intros c.
      assert (Ht : forall K : nat -> effect,
                (K = ChannelEnable \/ K = ChannelDisable) ->
                forall a, ~ In (K a) tail).
      { intros K [-> | ->] a; subst tail; destruct (iio_buf s); cbn;
          intuition discriminate. }
      destruct (in_switched ChannelDisable ChannelEnable c (input_scan_channels s)
                  tail InjD (Ht _ (or_intror eq_refl)) DE) as [H1 H2].
      rewrite H1, in_app_iff, input_scan_channels_spec. split.
      * split; [|intuition lia].
        intros [Hin | Hin]; [destruct (H2 Hin)|].
        destruct (Ht _ (or_introl eq_refl) c Hin).
      * tauto.
  - destruct (emits_frame_iio (map ChannelEnable (input_scan_channels s)) s)
      as (_ & B & T).
    set (tail := match iio_buf s with
                 | Some _ => []
                 | None =>
                   CreateBuffer BUFFER_LEN false ::
                   match created with
                   | None => [LogE_create errno]
                   | Some b => [SetBlockingMode b false]
                   end
                 end).
    exists (map ChannelEnable (input_scan_channels s) ++ tail). split.
    + rewrite B. subst tail. destruct (iio_buf s); [|destruct created];
        cbn [snd trace emit set_iio_buf];
        rewrite T, <- ?app_assoc, ?app_nil_r; reflexivity.
    + intros c.
      assert (Ht : forall K : nat -> effect,
                (K = ChannelEnable \/ K = ChannelDisable) ->
                forall a, ~ In (K a) tail).
      { intros K [-> | ->] a; subst tail; destruct (iio_buf s);
          try destruct created; cbn; intuition discriminate. }
      destruct (in_switched ChannelEnable ChannelDisable c (input_scan_channels s)
                  tail InjE (Ht _ (or_introl eq_refl)) ED) as [H1 H2].
      rewrite H1, in_app_iff, input_scan_channels_spec. split.
      * tauto.
      * split; [|intuition lia].
        intros [Hin | Hin]; [destruct (H2 Hin)|].
        destruct (Ht _ (or_intror eq_refl) c Hin).
Qed.

End IioSensorMore.

(** * The further properties on the sample values *)

(** X1 on the enabled gyroscope. *)
Lemma gyro_flags_stay_boolean_witness :
  (GyroSensor.mEnabled gyro_on = 0 \/ GyroSensor.mEnabled gyro_on = 1) /\
  (GyroSensor.mFlushEnabled gyro_on = 0 \/ GyroSensor.mFlushEnabled gyro_on = 1).
Proof.
  exact (@gyro_flags_stay_boolean sample_headers gyro_on gyro_on_reachable).
Defined.

(** X2 on a device that reports "disabled". *)
Lemma gyro_new_state_witness :
  GyroSensor.dev_fd gyro0 < 0.
Proof.
  apply (proj1 (proj2 (proj2 (@gyro_new_state sample_headers 7 sys_ok)))).
  reflexivity.
Defined.

(** X3: the disabled gyroscope is enabled. *)
Lemma gyro_setEnable_success_witness :
  fst (GyroSensor.setEnable sys_ok 0 1 gyro0) = 0 /\
  GyroSensor.getEnable 0 (snd (GyroSensor.setEnable sys_ok 0 1 gyro0)) = truth 1.
Proof.
  apply (gyro_setEnable_success sys_ok 0 1 gyro0). cbn. lia.
Defined.

(** X4: the enabled gyroscope is asked to disable and the ioctl fails. *)
Lemma gyro_setEnable_handle_witness :
  GyroSensor.dev_fd (snd (GyroSensor.setEnable sys_eio 0 0 gyro_on)) < 0.
Proof.
  apply (proj1 (gyro_setEnable_handle_follows_request sys_eio 0 0 gyro_on
                  ltac:(discriminate))).
  reflexivity.
Defined.

(** X5: a delay of 1.5 ms on the enabled gyroscope. *)
Lemma gyro_setDelay_enabled_witness :
  GyroSensor.setDelay sys_ok 0 1500000 gyro_on =
    (0, GyroSensor.emit
          (GyroSensor.SysIoctl 5 GyroSensor.L3G4200D_IOCTL_SET_DELAY 1) gyro_on).
Proof.
  apply (gyro_setDelay_enabled_keeps_handle sys_ok 0 1500000 gyro_on);
    [lia | discriminate].
Defined.

(** X6: the enabled gyroscope reads two sync events. *)
Lemma gyro_readEvents_stored_events_witness :
  Forall (fun e =>
            e = @GyroSensor.flush_init sample_headers \/
            (GyroSensor.same_header e (@GyroSensor.pending_init sample_headers) /\
             exists ev,
               In ev (GyroSensor.reader_after_fill
                        (GyroSensor.ReadData [ev_sync 1 2; ev_sync 3 4]) gyro_on) /\
               GyroSensor.is_sync ev = true /\
               GyroSensor.timestamp e = GyroSensor.timevalToNano (GyroSensor.ie_time ev)))
    (snd (fst (@GyroSensor.readEvents sample_headers
                 (GyroSensor.ReadData [ev_sync 1 2; ev_sync 3 4]) 4 gyro_on))).
Proof.
  apply (@gyro_readEvents_stored_events sample_headers
           (GyroSensor.ReadData [ev_sync 1 2; ev_sync 3 4]) 4 gyro_on
           gyro_on_reachable).
  lia.
Defined.

(** X7: three sync events and room for two. *)
Lemma gyro_readEvents_count_witness :
  fst (fst (@GyroSensor.readEvents sample_headers
              (GyroSensor.ReadData [ev_sync 1 2; ev_other 4 4; ev_sync 3 4; ev_sync 5 6])
              2 gyro_on)) =
    GyroSensor.marker_room gyro_on +
    (if GyroSensor.mEnabled gyro_on =? 0 then 0
     else Z.min (2 - GyroSensor.marker_room gyro_on)
            (GyroSensor.sync_count
               (GyroSensor.reader_after_fill
                  (GyroSensor.ReadData
                     [ev_sync 1 2; ev_other 4 4; ev_sync 3 4; ev_sync 5 6]) gyro_on))).
Proof.
  apply (@gyro_readEvents_count sample_headers
           (GyroSensor.ReadData [ev_sync 1 2; ev_other 4 4; ev_sync 3 4; ev_sync 5 6])
           2 gyro_on); [lia | vm_compute; discriminate].
Defined.

(** X8: the same call leaves the third sync event in the reader. *)
Lemma gyro_readEvents_leftover_witness :
  (exists consumed,
     GyroSensor.reader_after_fill
       (GyroSensor.ReadData [ev_sync 1 2; ev_other 4 4; ev_sync 3 4; ev_sync 5 6])
       gyro_on =
     consumed ++
       GyroSensor.mInputReader
         (snd (@GyroSensor.readEvents sample_headers
                 (GyroSensor.ReadData
                    [ev_sync 1 2; ev_other 4 4; ev_sync 3 4; ev_sync 5 6]) 2 gyro_on))) /\
  (GyroSensor.mInputReader
     (snd (@GyroSensor.readEvents sample_headers
             (GyroSensor.ReadData
                [ev_sync 1 2; ev_other 4 4; ev_sync 3 4; ev_sync 5 6]) 2 gyro_on)) = [] \/
   fst (fst (@GyroSensor.readEvents sample_headers
               (GyroSensor.ReadData
                  [ev_sync 1 2; ev_other 4 4; ev_sync 3 4; ev_sync 5 6]) 2 gyro_on)) = 2).
Proof.
  apply (@gyro_readEvents_leftover sample_headers
           (GyroSensor.ReadData [ev_sync 1 2; ev_other 4 4; ev_sync 3 4; ev_sync 5 6])
           2 gyro_on); [lia | vm_compute; discriminate].
Defined.


(** X12: three devices, the second one not usable; handles start at 100. *)
Lemma iio_updateSensorList_witness :
  (forall s,
     In s (IioSensor.updateSensorList 100 (Some [info3; info8; info3]) [iio0]) <->
     exists i d, [info3; info8; info3] !! i = Some d /\
                 IioSensor.isUsable d = true /\
                 s = IioSensor.new (IioSensor.di_device d) (100 + Z.of_nat i)
                       (IioSensor.di_greybus_type d) (IioSensor.di_flags d)) /\
  NoDup (map IioSensor.sensor_handle
           (IioSensor.updateSensorList 100 (Some [info3; info8; info3]) [iio0])) /\
  IioSensor.updateSensorList 100 None [iio0] = [iio0].
Proof.
  apply (iio_updateSensorList_sensors 100 [info3; info8; info3] [iio0]);
    [unfold INT_MIN; lia | unfold INT_MAX; cbn; lia].
Defined.

(** X14: the string is read; and the string read fails. *)
Lemma iio_readIioStr_witness :
  IioSensor.readIioStr attr_ok "Unknown Name" =
    ("Accel"%string, [IioSensor.Malloc 6]) /\
  fst (IioSensor.readIioStr attr_read_fails "Unknown Name") = "Unknown Name"%string.
Proof.
  split.
  - apply (proj1 (proj2 (iio_readIioStr_result attr_ok "Unknown Name"))).
    repeat split; vm_compute; reflexivity.
  - apply (proj2 (proj2 (iio_readIioStr_result attr_read_fails "Unknown Name"))).
    right. right. right. vm_compute. intros Hx. discriminate Hx.
Defined.

(** X15 on the sample sensor: the timestamp channel, index 1, is at 4. *)
Lemma iio_computeChannelOffsets_witness :
  IioSensor.channel_offset (IioSensor.computeChannelOffsets iio0) !! 1 = Some 4.
Proof.
  refine (proj1 (iio_computeChannelOffsets_lookup iio0 _)
            {| IioSensor.chan_index := 1; IioSensor.chan_id := Some "timestamp"%string;
               IioSensor.chan_is_output := false;
               IioSensor.chan_is_scan_element := true; IioSensor.chan_first := 4 |}
            _ _ _).
  - apply (bool_decide_unpack _). vm_compute. exact I.
  - cbn. right. left. reflexivity.
  - cbn. lia.
  - reflexivity.
Defined.

(** X18 on the enabled sample sensor, nothing left over, the refill works. *)
Lemma iio_readEvents_refills_witness :
  IioSensor.trace (snd (@IioSensor.readEvents sample_headers 24 2 iio_on)) =
    IioSensor.trace iio_on ++
      IioSensor.BufferRefill (IioSensor.iio_buf iio_on) :: (if 24 <? 0 then
        [IioSensor.LogE_refill (- 24)] else []).
Proof.
  apply (proj2 (@iio_readEvents_refills_iff_empty sample_headers 24 2 iio_on)).
  reflexivity.
Defined.

(** X19 on the enabled sample sensor: 24 bytes fetched, room for two. *)
Lemma iio_readEvents_refill_in_bounds_witness :
  let res := @IioSensor.readEvents sample_headers 24 2 iio_on in
  0 <= fst (fst res) /\
  fst (fst res) * 8 <= 24 /\
  0 <= IioSensor.remaining_samples (snd res) /\
  fst (fst res) + IioSensor.remaining_samples (snd res) = 24 / 8 /\
  snd (fst res) =
    map (fun i => @IioSensor.decode sample_headers (IioSensor.with_offsets iio_on)
                    (Z.of_nat i * 8))
      (seq 0 (Z.to_nat (fst (fst res)))).
Proof.
  apply (@iio_readEvents_refill_in_bounds sample_headers 24 2 iio_on);
    [reflexivity | unfold INT_MAX; lia | vm_compute; reflexivity].
Defined.

(** X20 on the sample sensor: enabled with buffer 1, then disabled. *)
Lemma iio_enable_disable_witness :
  let r1 := @IioSensor.setEnable sample_headers (Some 1) 0 100 1 iio0 in
  let r2 := @IioSensor.setEnable sample_headers None 0 100 0 (snd r1) in
  fst r1 = 0 /\ IioSensor.iio_buf (snd r1) = Some 1 /\
  IioSensor.getFd 9 (snd r1) = 9 /\
  fst r2 = 0 /\ IioSensor.iio_buf (snd r2) = None /\
  IioSensor.getFd 9 (snd r2) = -1 /\
  IioSensor.trace (snd r2) =
    IioSensor.trace iio0 ++
      map IioSensor.ChannelEnable (IioSensor.input_scan_channels iio0)
      ++ [IioSensor.CreateBuffer (@BUFFER_LEN sample_headers) false;
          IioSensor.SetBlockingMode 1 false]
      ++ map IioSensor.ChannelDisable (IioSensor.input_scan_channels iio0)
      ++ [IioSensor.DestroyBuffer 1].
Proof.
  apply (@iio_enable_disable_round_trip sample_headers 1 0 1 9 None 0 100 iio0);
    [reflexivity | reflexivity | discriminate].
Defined.

(** X21 on the sample sensor. *)
Lemma iio_enable_twice_witness :
  let on := snd (@IioSensor.setEnable sample_headers (Some 1) 12 100 1 iio0) in
  let failed := @IioSensor.setEnable sample_headers None 12 100 1 iio0 in
  @IioSensor.setEnable sample_headers (Some 2) 0 100 1 on =
    (0, IioSensor.emits
          (map IioSensor.ChannelEnable (IioSensor.input_scan_channels iio0)) on) /\
  fst failed = - 12 /\ IioSensor.iio_buf (snd failed) = None /\
  IioSensor.iio_buf
    (snd (@IioSensor.setEnable sample_headers (Some 1) 0 100 1 (snd failed))) = Some 1.
Proof.
  apply (@iio_enable_twice_and_retry sample_headers 1 12 1 (Some 2) 0 100 iio0);
    [reflexivity | reflexivity | discriminate].
Defined.

(** X22: handle 5 on the sensor with handle 100. *)
Lemma iio_foreign_handle_witness :
  @IioSensor.setEnable sample_headers (Some 1) 0 5 1 iio0 = (- EINVAL, iio0) /\
  IioSensor.batch 0 0 5 0 500000 0 iio0 = (- EINVAL, iio0) /\
  IioSensor.flush 0 5 iio0 = (- EINVAL, iio0).
Proof.
  apply (@iio_foreign_handle_rejected sample_headers (Some 1) 0 1 0 0 0 500000 0 0 5 iio0).
  discriminate.
Defined.


(** X23 on the sample sensor, asked to enable. *)
Lemma iio_setEnable_switches_witness :
  exists added,
    IioSensor.trace (snd (@IioSensor.setEnable sample_headers (Some 1) 0 100 1 iio0)) =
      IioSensor.trace iio0 ++ added /\
    forall c,
      (In (IioSensor.ChannelEnable c) added <->
         1 <> 0 /\
         exists ch, IioSensor.dev_channels (IioSensor.iio_dev iio0) !! c = Some ch /\
                    IioSensor.chan_is_output ch = false /\
                    IioSensor.chan_is_scan_element ch = true) /\
      (In (IioSensor.ChannelDisable c) added <->
         1 = 0 /\
         exists ch, IioSensor.dev_channels (IioSensor.iio_dev iio0) !! c = Some ch /\
                    IioSensor.chan_is_output ch = false /\
                    IioSensor.chan_is_scan_element ch = true).
Proof.
  apply (@iio_setEnable_switches_input_scan_channels sample_headers
           (Some 1) 0 100 1 iio0).
  reflexivity.
Defined.
